(** * The temporary-file cleanup task of fast-note-sync-service

    A shallow embedding of [internal/task/task_file_session_temp_clean.go]:
    the task [FileSessionTempCleanTask], its four methods and the parts of the
    Go runtime it calls ([time], [zap], [os], [filepath.Walk]), followed by the
    properties of [Run].

    The operating system is a tree of directory entries.  Every entry carries
    the answer the system gives to the calls made on it, so that refused
    removals, unreadable directories and entries that cannot be examined are
    inputs like any other. *)

From Stdlib Require Import ZArith List String Bool Lia.
Import ListNotations.
Local Open Scope string_scope.
Local Open Scope Z_scope.
Local Open Scope list_scope.
Set Warnings "-register-all".

(** ** Go values *)

(** Go's [int] on the 64-bit targets of the service: additions wrap. *)
Module int.
Definition wrap (z : Z) : Z := (z + 2 ^ 63) mod 2 ^ 64 - 2 ^ 63.
Definition add (x y : Z) : Z := wrap (x + y).
(** [x++] *)
Definition incr (x : Z) : Z := add x 1.
End int.

(** The [error] values that reach the task, by kind.  [None] is Go's [nil].
    [SkipDir] and [SkipAll] are the two sentinels of [filepath]. *)
Inductive error : Type :=
| ErrNotExist
| ErrPermission
| ErrExist
| ErrNotDir
| ErrNotEmpty
| ErrIO
| ErrCanceled
| SkipDir
| SkipAll.

Definition error_eqb (a b : error) : bool :=
  match a, b with
  | ErrNotExist, ErrNotExist | ErrPermission, ErrPermission
  | ErrExist, ErrExist | ErrNotDir, ErrNotDir | ErrNotEmpty, ErrNotEmpty
  | ErrIO, ErrIO | ErrCanceled, ErrCanceled
  | SkipDir, SkipDir | SkipAll, SkipAll => true
  | _, _ => false
  end.

(** [err == e] for an [error] interface value that may be nil. *)
Definition err_is (err : option error) (e : error) : bool :=
  match err with
  | Some e' => error_eqb e' e
  | None => false
  end.

(** [err != nil] *)
Definition notnil (err : option error) : bool :=
  match err with
  | Some _ => true
  | None => false
  end.

(** Package [time]: a [Duration] is a count of nanoseconds, a [Time] is a wall
    clock instant in nanoseconds since the epoch. *)
Module time.
Definition Duration := Z.
Definition Time := Z.
Definition Nanosecond : Duration := 1.
Definition Microsecond : Duration := 1000 * Nanosecond.
Definition Millisecond : Duration := 1000 * Microsecond.
Definition Second : Duration := 1000 * Millisecond.
Definition Minute : Duration := 60 * Second.
Definition Hour : Duration := 60 * Minute.
Definition Add (t : Time) (d : Duration) : Time := t + d.
Definition Before (t u : Time) : bool := t <? u.
End time.

(** A path is kept as the list of its components: the first is the root
    string a call was given, the others the names joined below it. *)
Definition Path := list string.

Definition path_string (p : Path) : string := String.concat "/" p.

(** Package [zap]: the fields of a structured log record. *)
Module zap.
Inductive Field : Type :=
| String (key val : string)
| Int (key : string) (val : Z)
| Error (err : error).
End zap.

Inductive Level : Type := InfoLevel | WarnLevel | ErrorLevel.

Record LogEntry : Type := mkEntry {
  level : Level;
  message : string;
  fields : list zap.Field
}.

(** ** The file system *)

(** What [Lstat] reports of an entry, and what the system answers when the
    entry is unlinked.  [perm] holds the permission bits the entry was created
    with, as given to the creating call. *)
Record attr : Type := mkAttr {
  mtime : time.Time;
  perm : Z;
  unlink_err : option error
}.

(** A directory entry: a file (anything that is not a directory), a directory
    with the answer to reading its names and its entries, or a name whose
    [Lstat] fails.  The entries are kept in the order [readDirNames] returns
    their names, which is sorted. *)
Inductive node : Type :=
| File (a : attr)
| Dir (a : attr) (readdir_err : option error) (ents : list (string * node))
| NoStat (e : error).

Record FileInfo : Type := mkInfo {
  IsDir : bool;
  ModTime : time.Time;
  Mode : Z
}.

(** The calls the task makes on the system, in the order it makes them. *)
Inductive syscall : Type :=
| SysStat (p : Path)
| SysLstat (p : Path)
| SysReadDir (p : Path)
| SysRemove (p : Path)
| SysRemoveAll (p : Path)
| SysMkdirAll (p : Path) (mode : Z).

(** ** The task and the state of the process *)

(** The task instance: [firstRun] is set by the constructor and cleared by
    [Run]. *)
Record FileSessionTempCleanTask : Type := mkTask {
  firstRun : bool
}.

(** [this] is the task instance the receiver [t] points to; [TempPath] and [Logger] are
    [global.Config.App.TempPath] and the records [global.Logger] has received;
    [clock], [roots] and [mkdir_err] are the system: the wall clock, the
    directory trees by root path and the answer to a directory creation;
    [trace] lists the calls made; [deletedCount] and [errorCount] are the two
    locals of [Run] that its walk function captures. *)
Record state : Type := mkState {
  this : FileSessionTempCleanTask;
  TempPath : string;
  Logger : list LogEntry;
  clock : time.Time;
  roots : list (string * node);
  mkdir_err : option error;
  trace : list syscall;
  deletedCount : Z;
  errorCount : Z
}.

Definition set_firstRun (b : bool) (s : state) : state :=
  mkState (mkTask b) (TempPath s) (Logger s) (clock s) (roots s) (mkdir_err s)
          (trace s) (deletedCount s) (errorCount s).

Definition set_Logger (l : list LogEntry) (s : state) : state :=
  mkState (this s) (TempPath s) l (clock s) (roots s) (mkdir_err s)
          (trace s) (deletedCount s) (errorCount s).

Definition set_roots (r : list (string * node)) (s : state) : state :=
  mkState (this s) (TempPath s) (Logger s) (clock s) r (mkdir_err s)
          (trace s) (deletedCount s) (errorCount s).

Definition set_trace (t : list syscall) (s : state) : state :=
  mkState (this s) (TempPath s) (Logger s) (clock s) (roots s)
          (mkdir_err s) t (deletedCount s) (errorCount s).

Definition set_deletedCount (n : Z) (s : state) : state :=
  mkState (this s) (TempPath s) (Logger s) (clock s) (roots s)
          (mkdir_err s) (trace s) n (errorCount s).

Definition set_errorCount (n : Z) (s : state) : state :=
  mkState (this s) (TempPath s) (Logger s) (clock s) (roots s)
          (mkdir_err s) (trace s) (deletedCount s) n.

(** ** Computations

    A computation ends with a value and a state, runs out of fuel (the walk is
    bounded by a depth), or panics (a nil dereference). *)
Inductive outcome (A : Type) : Type :=
| Done (a : A) (s : state)
| OutOfFuel
| Panic.
Arguments Done {A} a s.
Arguments OutOfFuel {A}.
Arguments Panic {A}.

Definition M (A : Type) : Type := state -> outcome A.

Definition ret {A} (a : A) : M A := fun s => Done a s.

Definition bind {A B} (m : M A) (k : A -> M B) : M B :=
  fun s => match m s with
           | Done a s' => k a s'
           | OutOfFuel => OutOfFuel
           | Panic => Panic
           end.

Notation "x <- m ;; k" := (bind m (fun x => k))
  (at level 61, m at next level, right associativity).
Notation "' pat <- m ;; k" := (bind m (fun pat => k))
  (at level 61, pat pattern, m at next level, right associativity).
Notation "m ;;; k" := (bind m (fun _ => k))
  (at level 61, right associativity).

Definition gets {A} (f : state -> A) : M A := fun s => Done (f s) s.
Definition modify (f : state -> state) : M unit := fun s => Done tt (f s).
Definition out_of_fuel {A} : M A := fun _ => OutOfFuel.
Definition panic {A} : M A := fun _ => Panic.

Definition emit (c : syscall) : M unit :=
  modify (fun s => set_trace (trace s ++ [c]) s).

(** Package [global]: the logger of the process. *)
Module global.
Module Logger.
Definition log (lv : Level) (msg : string) (fs : list zap.Field) : M unit :=
  modify (fun s => set_Logger (Logger s ++ [mkEntry lv msg fs]) s).
Definition Info := log InfoLevel.
Definition Warn := log WarnLevel.
Definition Error := log ErrorLevel.
End Logger.
End global.

(** ** The directory tree *)

(** The entry of a name among the entries of a directory. *)
Fixpoint lookup (x : string) (ents : list (string * node)) : option node :=
  match ents with
  | [] => None
  | (y, n) :: es => if String.eqb x y then Some n else lookup x es
  end.

(** Replace the entry of a name by [f] of it, or drop it when [f] gives
    nothing. *)
Fixpoint alter_entry (f : node -> option node) (x : string)
         (ents : list (string * node)) : list (string * node) :=
  match ents with
  | [] => []
  | (y, n) :: es =>
      if String.eqb x y
      then match f n with
           | Some n' => (y, n') :: es
           | None => es
           end
      else (y, n) :: alter_entry f x es
  end.

(** A new entry goes before the first name above it, so a sorted directory
    stays sorted. *)
Fixpoint insert_entry (x : string) (n : node)
         (ents : list (string * node)) : list (string * node) :=
  match ents with
  | [] => [(x, n)]
  | (y, m) :: es =>
      if String.leb x y then (x, n) :: (y, m) :: es
      else (y, m) :: insert_entry x n es
  end.

(** The entry a path leads to. *)
Fixpoint find (ents : list (string * node)) (p : Path) : option node :=
  match p with
  | [] => None
  | x :: q =>
      match q with
      | [] => lookup x ents
      | _ :: _ =>
          match lookup x ents with
          | Some (Dir _ _ sub) => find sub q
          | _ => None
          end
      end
  end.

Definition into_dir (g : list (string * node) -> list (string * node))
           (n : node) : option node :=
  match n with
  | Dir a rd sub => Some (Dir a rd (g sub))
  | _ => Some n
  end.

(** Replace or drop the entry a path leads to. *)
Fixpoint alter (f : node -> option node) (p : Path)
         (ents : list (string * node)) : list (string * node) :=
  match p with
  | [] => ents
  | x :: q =>
      match q with
      | [] => alter_entry f x ents
      | _ :: _ => alter_entry (into_dir (alter f q)) x ents
      end
  end.

(** Create the directories of a path that are missing, each with the
    attributes [a] and no entry but the next one of the path. *)
Fixpoint mkdirs (a : attr) (p : Path)
         (ents : list (string * node)) : list (string * node) :=
  match p with
  | [] => ents
  | x :: q =>
      match lookup x ents with
      | Some _ => alter_entry (into_dir (mkdirs a q)) x ents
      | None => insert_entry x (Dir a None (mkdirs a q [])) ents
      end
  end.

Definition info_of (a : attr) (dir : bool) : FileInfo :=
  mkInfo dir (mtime a) (perm a).

(** The two results of [Stat] and [Lstat]. *)
Definition stat_of (o : option node) : option FileInfo * option error :=
  match o with
  | None => (None, Some ErrNotExist)
  | Some (NoStat e) => (None, Some e)
  | Some (File a) => (Some (info_of a false), None)
  | Some (Dir a _ _) => (Some (info_of a true), None)
  end.

(** The two results of reading the names of a directory. *)
Definition names_of (o : option node) : list string * option error :=
  match o with
  | None => ([], Some ErrNotExist)
  | Some (NoStat e) => ([], Some e)
  | Some (File _) => ([], Some ErrNotDir)
  | Some (Dir _ (Some e) _) => ([], Some e)
  | Some (Dir _ None ents) => (map fst ents, None)
  end.

(** The answer to unlinking one entry: a file, or a directory that must be
    empty. *)
Definition unlink_of (o : option node) : option error :=
  match o with
  | None => Some ErrNotExist
  | Some (NoStat e) => Some e
  | Some (File a) => unlink_err a
  | Some (Dir a _ []) => unlink_err a
  | Some (Dir _ _ (_ :: _)) => Some ErrNotEmpty
  end.

Definition first_err (e1 e2 : option error) : option error :=
  match e1 with
  | Some _ => e1
  | None => e2
  end.

(** Removing an entry and all below it: what is left of it and the first
    error met.  Everything that can go is removed. *)
Fixpoint removeAll_node (n : node) : option node * option error :=
  match n with
  | File a =>
      match unlink_err a with
      | None => (None, None)
      | Some e => (Some n, Some e)
      end
  | NoStat e =>
      if error_eqb e ErrNotExist then (None, None) else (Some n, Some e)
  | Dir a rd ents =>
      match rd with
      | Some e => (Some n, Some e)
      | None =>
          let fix all (es : list (string * node)) :=
            match es with
            | [] => ([], None)
            | (x, m) :: es' =>
                let (m', e1) := removeAll_node m in
                let (es'', e2) := all es' in
                (match m' with
                 | Some k => (x, k) :: es''
                 | None => es''
                 end, first_err e1 e2)
            end in
          let (ents', err) := all ents in
          match first_err err (unlink_err a) with
          | None => (None, None)
          | Some e => (Some (Dir a rd ents'), Some e)
          end
      end
  end.

(** ** Package [os] *)
Module os.

Definition IsNotExist (err : option error) : bool := err_is err ErrNotExist.

Definition Stat (name : Path) : M (option FileInfo * option error) :=
  emit (SysStat name) ;;;
  gets (fun s => stat_of (find (roots s) name)).

Definition Lstat (name : Path) : M (option FileInfo * option error) :=
  emit (SysLstat name) ;;;
  gets (fun s => stat_of (find (roots s) name)).

Definition Remove (name : Path) : M (option error) :=
  emit (SysRemove name) ;;;
  err <- gets (fun s => unlink_of (find (roots s) name)) ;;
  match err with
  | Some _ => ret err
  | None =>
      modify (fun s => set_roots (alter (fun _ => None) name (roots s)) s) ;;;
      ret None
  end.

Definition RemoveAll (path : Path) : M (option error) :=
  emit (SysRemoveAll path) ;;;
  o <- gets (fun s => find (roots s) path) ;;
  match o with
  | None => ret None
  | Some n =>
      let (rest, err) := removeAll_node n in
      modify (fun s => set_roots (alter (fun _ => rest) path (roots s)) s) ;;;
      ret err
  end.

Definition MkdirAll (path : Path) (mode : Z) : M (option error) :=
  emit (SysMkdirAll path mode) ;;;
  o <- gets (fun s => find (roots s) path) ;;
  match o with
  | Some (Dir _ _ _) => ret None
  | Some (File _) => ret (Some ErrNotDir)
  | Some (NoStat e) => ret (Some e)
  | None =>
      failure <- gets mkdir_err ;;
      match failure with
      | Some e => ret (Some e)
      | None =>
          modify (fun s =>
            set_roots
              (mkdirs (mkAttr (clock s) mode None) path (roots s)) s) ;;;
          ret None
      end
  end.

End os.

Module time_.
Definition Now : M time.Time := gets clock.
End time_.

(** ** Package [path/filepath] *)
Module filepath.

Definition WalkFunc : Type :=
  Path -> option FileInfo -> option error -> M (option error).

Definition Join (path : Path) (name : string) : Path := path ++ [name].

Definition readDirNames (dirname : Path) : M (list string * option error) :=
  emit (SysReadDir dirname) ;;;
  gets (fun s => names_of (find (roots s) dirname)).

(** The loop of [walk] over the names of a directory; [rec] is the
    recursive call. *)
Definition walk_names (rec : Path -> FileInfo -> M (option error))
           (walkFn : WalkFunc) (path : Path)
  : list string -> M (option error) :=
  fix loop (names : list string) : M (option error) :=
    match names with
    | [] => ret None
    | name :: rest =>
        let filename := Join path name in
        '(fileInfo, err) <- os.Lstat filename ;;
        if notnil err then
          err <- walkFn filename fileInfo err ;;
          if notnil err && negb (err_is err SkipDir) then ret err
          else loop rest
        else
          match fileInfo with
          | None => panic
          | Some fileInfo =>
              err <- rec filename fileInfo ;;
              if notnil err then
                if negb (IsDir fileInfo) || negb (err_is err SkipDir)
                then ret err
                else loop rest
              else loop rest
          end
    end.

(** [walk] descends the tree below [path]; each level takes one unit of
    fuel. *)
Fixpoint walk (fuel : nat) (path : Path) (info : FileInfo)
         (walkFn : WalkFunc) : M (option error) :=
  match fuel with
  | O => out_of_fuel
  | S fuel' =>
      if negb (IsDir info) then walkFn path (Some info) None
      else
        '(names, err) <- readDirNames path ;;
        err1 <- walkFn path (Some info) err ;;
        if notnil err || notnil err1 then ret err1
        else
          walk_names (fun p i => walk fuel' p i walkFn) walkFn path names
  end.

Definition Walk (fuel : nat) (root : Path) (fn : WalkFunc)
  : M (option error) :=
  '(info, err) <- os.Lstat root ;;
  err <- (if notnil err then fn root None err
          else match info with
               | None => panic
               | Some info => walk fuel root info fn
               end) ;;
  if err_is err SkipDir || err_is err SkipAll then ret None
  else ret err.

End filepath.

(** ** The task *)

(** [context.Context], as far as a task can observe it: [Err] is nil until
    the context is cancelled. *)
Module context.
Record Context : Type := mkContext {
  Err : option error
}.
Definition Background : Context := mkContext None.
End context.

Definition Name : string := "FileSessionTempClean".

Definition LoopInterval : time.Duration := time.Hour.

Definition IsStartupRun : bool := true.

Definition NewFileSessionTempCleanTask
  : FileSessionTempCleanTask * option error :=
  (mkTask true, None).

(** The mode given to [os.MkdirAll], octal 0754. *)
Definition dirMode : Z := 7 * 64 + 5 * 8 + 4.

(** [time.Now().Add(-2 * time.Hour)] *)
Definition twoHoursAgo (now : time.Time) : time.Time :=
  time.Add now (-2 * time.Hour).

(** The function [Run] gives to [filepath.Walk]. *)
Definition walkFn (twoHoursAgo : time.Time) : filepath.WalkFunc :=
  fun path info err =>
    match err with
    | Some e =>
        global.Logger.Warn "task log"
          [zap.String "task" Name;
           zap.String "type" "loopRun";
           zap.String "path" (path_string path);
           zap.String "msg" "error accessing path";
           zap.Error e] ;;;
        ret None
    | None =>
        match info with
        | None => panic
        | Some info =>
            if IsDir info then ret None
            else
              (if time.Before (ModTime info) twoHoursAgo then
                 removeErr <- os.Remove path ;;
                 match removeErr with
                 | Some e =>
                     global.Logger.Warn "task log"
                       [zap.String "task" Name;
                        zap.String "type" "loopRun";
                        zap.String "path" (path_string path);
                        zap.String "msg" "failed to remove old file";
                        zap.Error e] ;;;
                     modify (fun s =>
                       set_errorCount (int.incr (errorCount s)) s)
                 | None =>
                     modify (fun s =>
                       set_deletedCount (int.incr (deletedCount s)) s)
                 end
               else ret tt) ;;;
              ret None
        end
    end.

(** The body of [if t.firstRun { ... }]. *)
Definition startupRun (tempDir : string) : M (option error) :=
  modify (set_firstRun false) ;;;
  err <- os.RemoveAll [tempDir] ;;
  match err with
  | Some e =>
      global.Logger.Error "task log"
        [zap.String "task" Name;
         zap.String "type" "startupRun";
         zap.String "path" tempDir;
         zap.String "msg" "failed";
         zap.Error e] ;;;
      ret err
  | None =>
      err <- os.MkdirAll [tempDir] dirMode ;;
      match err with
      | Some e =>
          global.Logger.Error "task log"
            [zap.String "task" Name;
             zap.String "type" "startupRun";
             zap.String "path" tempDir;
             zap.String "msg" "failed";
             zap.Error e] ;;;
          ret err
      | None =>
          global.Logger.Info "task log"
            [zap.String "task" Name;
             zap.String "type" "startupRun";
             zap.String "msg" "success"] ;;;
          ret None
      end
  end.

(** The rest of [Run], from [twoHoursAgo := ...] on. *)
Definition loopRun (fuel : nat) (tempDir : string) : M (option error) :=
  now <- time_.Now ;;
  let twoHoursAgo := twoHoursAgo now in
  modify (set_deletedCount 0) ;;;
  modify (set_errorCount 0) ;;;
  err <- filepath.Walk fuel [tempDir] (walkFn twoHoursAgo) ;;
  match err with
  | Some e =>
      global.Logger.Error "task log"
        [zap.String "task" Name;
         zap.String "type" "loopRun";
         zap.String "path" tempDir;
         zap.String "msg" "failed";
         zap.Error e] ;;;
      ret err
  | None =>
      deletedCount <- gets deletedCount ;;
      errorCount <- gets errorCount ;;
      global.Logger.Info "task log"
        [zap.String "task" Name;
         zap.String "type" "loopRun";
         zap.Int "deletedCount" deletedCount;
         zap.Int "errorCount" errorCount;
         zap.String "msg" "success"] ;;;
      ret None
  end.

(** [global.Config.App.TempPath], or the fallback when it is empty. *)
Definition tempDir_of (s : state) : string :=
  if String.eqb (TempPath s) "" then "storage/temp" else TempPath s.

Definition Run (fuel : nat) (ctx : context.Context) : M (option error) :=
  tempDir <- gets tempDir_of ;;
  '(_, err) <- os.Stat [tempDir] ;;
  if os.IsNotExist err then
    global.Logger.Error "task log"
      [zap.String "task" Name;
       zap.String "type" "run";
       zap.String "path" tempDir;
       zap.String "reason" "temp directory does not exist";
       zap.String "msg" "failed"] ;;;
    ret err
  else
    t <- gets this ;;
    if firstRun t then startupRun tempDir
    else loopRun fuel tempDir.

(** ** What a sweep does to a tree

    The sweep read off the tree alone, to compare with the walk of [Run]:
    what it leaves of an entry and how many removals succeed and fail.  An
    entry below a directory that cannot be read, or one that cannot be
    examined, is never reached. *)

(** The test of [Run] on a file: older than the threshold. *)
Definition stale (th : time.Time) (a : attr) : bool :=
  time.Before (mtime a) th.

Definition keep (x : string) (o : option node) : list (string * node) :=
  match o with
  | Some n => [(x, n)]
  | None => []
  end.

Fixpoint sweep_node (th : time.Time) (n : node) : option node :=
  match n with
  | File a =>
      if stale th a
      then match unlink_err a with
           | None => None
           | Some _ => Some n
           end
      else Some n
  | Dir a None ents =>
      Some (Dir a None
              (flat_map (fun e => keep (fst e) (sweep_node th (snd e))) ents))
  | Dir _ (Some _) _ => Some n
  | NoStat _ => Some n
  end.

Definition sweep_ents (th : time.Time) (ents : list (string * node))
  : list (string * node) :=
  flat_map (fun e => keep (fst e) (sweep_node th (snd e))) ents.

(** The stale files the walk reaches whose removal succeeds. *)
Fixpoint deleted_in (th : time.Time) (n : node) : nat :=
  match n with
  | File a =>
      if stale th a
      then match unlink_err a with
           | None => 1
           | Some _ => 0
           end
      else 0
  | Dir _ None ents => list_sum (map (fun e => deleted_in th (snd e)) ents)
  | Dir _ (Some _) _ => 0
  | NoStat _ => 0
  end%nat.

(** The stale files the walk reaches whose removal fails. *)
Fixpoint failed_in (th : time.Time) (n : node) : nat :=
  match n with
  | File a =>
      if stale th a
      then match unlink_err a with
           | None => 0
           | Some _ => 1
           end
      else 0
  | Dir _ None ents => list_sum (map (fun e => failed_in th (snd e)) ents)
  | Dir _ (Some _) _ => 0
  | NoStat _ => 0
  end%nat.

(** The number of levels of a tree. *)
Fixpoint height (n : node) : nat :=
  match n with
  | Dir _ _ ents => S (list_max (map (fun e => height (snd e)) ents))
  | _ => 1
  end.

Fixpoint distinct (names : list string) : bool :=
  match names with
  | [] => true
  | x :: rest => negb (existsb (String.eqb x) rest) && distinct rest
  end.

(** No directory of the tree lists a name twice. *)
Fixpoint wf_node (n : node) : bool :=
  match n with
  | Dir _ _ ents =>
      distinct (map fst ents) && forallb (fun e => wf_node (snd e)) ents
  | _ => true
  end.

(** Every directory on the way to the entry of a path can be read. *)
Fixpoint reached (ents : list (string * node)) (p : Path) : bool :=
  match p with
  | [] => false
  | x :: q =>
      match q with
      | [] => true
      | _ :: _ =>
          match lookup x ents with
          | Some (Dir _ None sub) => reached sub q
          | _ => false
          end
      end
  end.

(** [n] increments of a Go [int]. *)
Definition count_up (n : nat) (z : Z) : Z := Nat.iter n int.incr z.

(** ** The lifetime of the process

    [later s s'] holds when [s'] comes after [s] in the life of the process:
    between invocations of [Run] the environment may change the files, the
    clock, the configuration and the log, but not the task instance nor the
    record of the calls the task made. *)
Inductive later (s : state) : state -> Prop :=
| later_now : later s s
| later_env s1 s2 :
    later s s1 -> this s2 = this s1 -> trace s2 = trace s1 -> later s s2
| later_Run s1 s2 fuel ctx r :
    later s s1 -> Run fuel ctx s1 = Done r s2 -> later s s2.


(** ** Sample trees and states *)

Definition plain_file (m : time.Time) : node := File (mkAttr m 420 None).

Definition locked_file (m : time.Time) : node :=
  File (mkAttr m 420 (Some ErrPermission)).

Definition plain_dir (ents : list (string * node)) : node :=
  Dir (mkAttr 0 493 None) None ents.

(** A process with an empty configuration, whose fallback directory holds
    [tree], at the instant [now]. *)
Definition boot (first : bool) (now : time.Time) (tree : node) : state :=
  mkState (mkTask first) "" [] now [("storage/temp", tree)] None [] 0 0.

Definition noon : time.Time := 12 * time.Hour.


(** A directory that cannot be read. *)
Definition s_unreadable : state :=
  boot false noon
       (Dir (mkAttr 0 493 None) (Some ErrPermission) [("old", plain_file 0)]).

(** A directory that cannot be examined. *)
Definition s_denied (first : bool) : state :=
  boot first noon (NoStat ErrPermission).


(** Ten old files, one of which cannot be removed. *)
Definition s_ten : state :=
  boot false noon
       (plain_dir
          [("f0", plain_file 0); ("f1", plain_file 0); ("f2", plain_file 0);
           ("f3", plain_file 0); ("f4", locked_file 0); ("f5", plain_file 0);
           ("f6", plain_file 0); ("f7", plain_file 0); ("f8", plain_file 0);
           ("f9", plain_file 0)]).

(** No directory at all. *)
Definition s_empty (first : bool) : state :=
  mkState (mkTask first) "" [] noon [] None [] 0 0.

(** A file modified exactly two hours before noon, and one modified a
    nanosecond earlier, in a subdirectory. *)
Definition s_boundary : state :=
  boot false noon
       (plain_dir
          [("sub", plain_dir
                     [("edge", plain_file (10 * time.Hour));
                      ("old", plain_file (10 * time.Hour - 1))])]).

(** A first run on a directory that is not empty. *)
Definition s_fresh : state :=
  boot true noon
       (plain_dir [("a", plain_file 0);
                   ("d", plain_dir [("b", plain_file 1)])]).

(** ** Records, calls and states named in the properties *)

(** The record [Run] writes when the target directory is missing. *)
Definition missing_entry (tempDir : string) : LogEntry :=
  mkEntry ErrorLevel "task log"
    [zap.String "task" Name;
     zap.String "type" "run";
     zap.String "path" tempDir;
     zap.String "reason" "temp directory does not exist";
     zap.String "msg" "failed"].

(** The record of a sweep that ended, with its two counts. *)
Definition sweep_entry (deleted errors : Z) : LogEntry :=
  mkEntry InfoLevel "task log"
    [zap.String "task" Name;
     zap.String "type" "loopRun";
     zap.Int "deletedCount" deleted;
     zap.Int "errorCount" errors;
     zap.String "msg" "success"].

(** The calls that change the file system. *)
Definition mutates (c : syscall) : bool :=
  match c with
  | SysRemove _ | SysRemoveAll _ | SysMkdirAll _ _ => true
  | _ => false
  end.

(** The two calls of the wipe. *)
Definition is_wipe (c : syscall) : bool :=
  match c with
  | SysRemoveAll _ | SysMkdirAll _ _ => true
  | _ => false
  end.

(** The state [Run] reaches past the existence check. *)
Definition checked (s : state) : state :=
  set_trace (trace s ++ [SysStat [tempDir_of s]]) s.

(** The error of the existence check. *)
Definition stat_err (s : state) : option error :=
  snd (stat_of (find (roots s) [tempDir_of s])).

(** ** States a walk relates

    [steps s s'] relates a state to a later one reached without a wipe: the
    task instance, the configuration, the clock and the creation answer are
    the same, the calls made are not those of the wipe and the log has only
    grown. *)
Record steps (s s' : state) : Prop := mkSteps {
  st_this : this s' = this s;
  st_TempPath : TempPath s' = TempPath s;
  st_clock : clock s' = clock s;
  st_mkdir : mkdir_err s' = mkdir_err s;
  st_trace : exists t, trace s' = trace s ++ t /\
                       forallb (fun c => negb (is_wipe c)) t = true;
  st_Logger : exists l, Logger s' = Logger s ++ l
}.

(** A computation that can only end with a nil error and without a wipe. *)
Definition quiet (m : M (option error)) : Prop :=
  forall s r s', m s = Done r s' -> r = None /\ steps s s'.

(** The walk of a subtree the fuel covers ends without error, leaves of the
    subtree what the sweep leaves, and counts as the sweep counts. *)
Definition walk_spec (th : time.Time) (fuel : nat) : Prop :=
  forall p n i s,
    p <> [] ->
    find (roots s) p = Some n ->
    stat_of (Some n) = (Some i, None) ->
    wf_node n = true ->
    (height n <= fuel)%nat ->
    exists s',
      filepath.walk fuel p i (walkFn th) s = Done None s' /\
      roots s' = alter (fun _ => sweep_node th n) p (roots s) /\
      deletedCount s' = count_up (deleted_in th n) (deletedCount s) /\
      errorCount s' = count_up (failed_in th n) (errorCount s).


(** ** Further notions for the properties of [Run] *)

(** The path a call is made on. *)
Definition call_path (c : syscall) : Path :=
  match c with
  | SysStat p | SysLstat p | SysReadDir p | SysRemove p | SysRemoveAll p
  | SysMkdirAll p _ => p
  end.

(** A path at or below the root [t]. *)
Definition below (t : string) (p : Path) : Prop := hd_error p = Some t.

Definition is_remove (c : syscall) : bool :=
  match c with
  | SysRemove _ => true
  | _ => false
  end.

(** [confined t s s'] holds when, from [s] to [s'], every call made is on a
    path at or below [t] and every other root is as it was. *)
Definition confined (t : string) (s s' : state) : Prop :=
  (forall x, x <> t -> lookup x (roots s') = lookup x (roots s)) /\
  exists calls, trace s' = trace s ++ calls /\
                Forall (fun c => below t (call_path c)) calls.

(** A record of the task: the fixed message and the name of the task. *)
Definition tagged (e : LogEntry) : Prop :=
  message e = "task log" /\ In (zap.String "task" Name) (fields e).

(** [warned s s'] holds when the log has grown by warnings of the task
    only. *)
Definition warned (s s' : state) : Prop :=
  exists l, Logger s' = Logger s ++ l /\
            Forall (fun e => level e = WarnLevel /\ tagged e) l.

(** [accounted s s'] holds when every [os.Remove] made from [s] to [s'] went
    with one increment of one of the two counters, and nothing else was
    counted. *)
Definition accounted (s s' : state) : Prop :=
  exists (a b : nat) calls,
    trace s' = trace s ++ calls /\
    List.length (filter is_remove calls) = (a + b)%nat /\
    deletedCount s' = count_up a (deletedCount s) /\
    errorCount s' = count_up b (errorCount s).

(** A process in which the task was just built by its constructor and has
    made no call yet. *)
Definition born (s : state) : Prop :=
  this s = fst NewFileSessionTempCleanTask /\ trace s = [].

(** [k] invocations of [Run] in a row, with nothing happening in between;
    the errors they return, in order. *)
Fixpoint invocations (k : nat) (fuel : nat) (ctx : context.Context)
  : M (list (option error)) :=
  match k with
  | O => ret []
  | S k' =>
      r <- Run fuel ctx ;;
      rs <- invocations k' fuel ctx ;;
      ret (r :: rs)
  end.

(** A directory of 90 minutes with a file of three hours, beside another
    root the task has nothing to do with. *)
Definition s_shared : state :=
  mkState (mkTask false) "" [] noon
    [("data", plain_dir [("keep", plain_file 0)]);
     ("storage/temp",
      plain_dir [("sub", Dir (mkAttr 0 493 None) None []);
                 ("old", plain_file (9 * time.Hour));
                 ("new", plain_file (11 * time.Hour))])]
    None [] 0 0.

(** The temporary path is an old file, not a directory. *)
Definition s_file : state := boot false noon (plain_file 0).

(** The level and the outcome tag of the last record of an invocation. *)
Definition outcome_level (r : option error) : Level :=
  match r with
  | None => InfoLevel
  | Some _ => ErrorLevel
  end.

Definition outcome_msg (r : option error) : string :=
  match r with
  | None => "success"
  | Some _ => "failed"
  end.

(** * Properties *)

(** ** Reading the steps of a computation *)

Lemma bind_Done {A B} (m : M A) (k : A -> M B) s a s' :
  m s = Done a s' -> bind m k s = k a s'.
Proof. unfold bind. intros ->. reflexivity. Qed.

Lemma bind_inv {A B} (m : M A) (k : A -> M B) s b s'' :
  bind m k s = Done b s'' ->
  exists a s', m s = Done a s' /\ k a s' = Done b s''.
Proof.
  unfold bind. destruct (m s) as [a s'| |]; try discriminate.
  intros H. exists a, s'. split; [reflexivity | exact H].
Qed.

Ltac run_prims :=
  cbv [os.Stat os.Lstat os.Remove os.RemoveAll os.MkdirAll
       filepath.readDirNames time_.Now emit
       global.Logger.Info global.Logger.Warn global.Logger.Error global.Logger.log
       bind ret gets modify panic out_of_fuel].

Lemma Run_missing fuel ctx s :
  os.IsNotExist (stat_err s) = true ->
  Run fuel ctx s =
  Done (stat_err s)
       (set_Logger (Logger s ++ [missing_entry (tempDir_of s)]) (checked s)).
Proof.
  unfold stat_err, Run. run_prims. cbn.
  destruct (stat_of _) as [i e]. cbn. intros ->. reflexivity.
Qed.

Lemma Run_checked fuel ctx s :
  os.IsNotExist (stat_err s) = false ->
  Run fuel ctx s =
  (if firstRun (this s) then startupRun (tempDir_of s)
   else loopRun fuel (tempDir_of s)) (checked s).
Proof.
  unfold stat_err, Run. run_prims. cbn.
  destruct (stat_of _) as [i e]. cbn. intros ->. reflexivity.
Qed.

(** ** The declarations of the task *)

(** C9: the task declares an interval of exactly one hour and a run at
    startup; the age threshold of a sweep is the instant two hours before
    now, and two hours is strictly more than the interval. *)
Theorem C9_declarations :
  LoopInterval = 3600 * 1000000000 /\
  LoopInterval = time.Hour /\
  IsStartupRun = true /\
  (forall now, twoHoursAgo now = now - 2 * time.Hour) /\
  LoopInterval < 2 * time.Hour /\
  (forall now, twoHoursAgo now < now - LoopInterval).
Proof.
  assert (H : time.Hour = 3600000000000) by reflexivity.
  unfold twoHoursAgo, time.Add, LoopInterval.
  repeat split; try reflexivity; intros; rewrite H; lia.
Qed.

(** ** A missing directory *)

(** C6: when the target directory does not exist, in either state of the
    task, [Run] returns the not-exist error of the check; the only call made
    is the [Stat] of the check, so nothing is deleted, created or removed,
    the directory trees are the same and so is the task instance. *)
Theorem C6_missing_directory fuel ctx s :
  find (roots s) [tempDir_of s] = None ->
  exists s',
    Run fuel ctx s = Done (Some ErrNotExist) s' /\
    os.IsNotExist (Some ErrNotExist) = true /\
    trace s' = trace s ++ [SysStat [tempDir_of s]] /\
    filter mutates (trace s') = filter mutates (trace s) /\
    roots s' = roots s /\
    this s' = this s /\
    Logger s' = Logger s ++ [missing_entry (tempDir_of s)].
Proof.
  intros Hfind.
  assert (E : stat_err s = Some ErrNotExist).
  { unfold stat_err. rewrite Hfind. reflexivity. }
  eexists. split.
  - rewrite Run_missing; rewrite E; reflexivity.
  - cbn. rewrite filter_app. cbn. rewrite app_nil_r. repeat split.
Qed.

(** ** What a walk leaves untouched *)

Lemma steps_refl s : steps s s.
Proof.
  split; try reflexivity.
  - exists []. rewrite app_nil_r. split; reflexivity.
  - exists []. rewrite app_nil_r. reflexivity.
Qed.

Lemma steps_trans s1 s2 s3 : steps s1 s2 -> steps s2 s3 -> steps s1 s3.
Proof.
  intros [a1 b1 c1 d1 [t1 [e1 f1]] [l1 g1]] [a2 b2 c2 d2 [t2 [e2 f2]] [l2 g2]].
  split; try congruence.
  - exists (t1 ++ t2). rewrite e2, e1, app_assoc, forallb_app, f1, f2.
    split; reflexivity.
  - exists (l1 ++ l2). rewrite g2, g1, app_assoc. reflexivity.
Qed.

Lemma steps_call s c :
  is_wipe c = false -> steps s (set_trace (trace s ++ [c]) s).
Proof.
  intros H. split; try reflexivity.
  - exists [c]. cbn. rewrite H. split; reflexivity.
  - exists []. cbn. rewrite app_nil_r. reflexivity.
Qed.

Lemma steps_log s e : steps s (set_Logger (Logger s ++ [e]) s).
Proof.
  split; try reflexivity.
  - exists []. cbn. rewrite app_nil_r. split; reflexivity.
  - exists [e]. reflexivity.
Qed.

Lemma steps_roots s r : steps s (set_roots r s).
Proof.
  split; try reflexivity.
  - exists []. cbn. rewrite app_nil_r. split; reflexivity.
  - exists []. cbn. rewrite app_nil_r. reflexivity.
Qed.

Lemma steps_deletedCount s n : steps s (set_deletedCount n s).
Proof.
  split; try reflexivity.
  - exists []. cbn. rewrite app_nil_r. split; reflexivity.
  - exists []. cbn. rewrite app_nil_r. reflexivity.
Qed.

Lemma steps_errorCount s n : steps s (set_errorCount n s).
Proof.
  split; try reflexivity.
  - exists []. cbn. rewrite app_nil_r. split; reflexivity.
  - exists []. cbn. rewrite app_nil_r. reflexivity.
Qed.

Create HintDb steps.
#[local] Hint Resolve steps_refl steps_call steps_log steps_roots
  steps_deletedCount steps_errorCount : steps.

Lemma Lstat_steps name s :
  os.Lstat name s =
  Done (stat_of (find (roots s) name))
       (set_trace (trace s ++ [SysLstat name]) s).
Proof. reflexivity. Qed.

Lemma readDirNames_steps name s :
  filepath.readDirNames name s =
  Done (names_of (find (roots s) name))
       (set_trace (trace s ++ [SysReadDir name]) s).
Proof. reflexivity. Qed.

Lemma Remove_steps name s r s' :
  os.Remove name s = Done r s' -> steps s s'.
Proof.
  run_prims. cbn.
  destruct (unlink_of _); intros H; inversion H; subst; clear H.
  - apply (steps_call s (SysRemove name)). reflexivity.
  - apply steps_trans with (set_trace (trace s ++ [SysRemove name]) s).
    + apply steps_call. reflexivity.
    + apply (steps_roots (set_trace (trace s ++ [SysRemove name]) s)).
Qed.

Lemma walkFn_quiet th path info err : quiet (walkFn th path info err).
Proof.
  intros s r s'. unfold walkFn.
  destruct err as [e|].
  - run_prims. intros H; inversion H; subst. split; auto with steps.
  - destruct info as [info|]; [|discriminate].
    destruct (IsDir info).
    + intros H; inversion H; subst. split; auto with steps.
    + destruct (time.Before _ _).
      * intros H. apply bind_inv in H. destruct H as [u [s1 [H1 H2]]].
        inversion H2; subst; clear H2. split; [reflexivity|].
        apply bind_inv in H1. destruct H1 as [re [s2 [H1 H2]]].
        apply Remove_steps in H1.
        eapply steps_trans; [exact H1|].
        destruct re; revert H2; run_prims; intros H2; inversion H2; subst.
        -- eapply steps_trans; [apply steps_log | apply steps_errorCount].
        -- apply steps_deletedCount.
      * intros H; inversion H; subst. split; auto with steps.
Qed.

Section Walk.

Variable fn : filepath.WalkFunc.
Hypothesis fn_quiet : forall path info err, quiet (fn path info err).

Lemma walk_names_quiet rec path names :
  (forall p i, quiet (rec p i)) ->
  quiet (filepath.walk_names rec fn path names).
Proof.
  intros Hrec. induction names as [|name rest IH]; intros s r s'.
  - intros H; inversion H; subst. split; auto with steps.
  - cbn [filepath.walk_names]. intros H.
    apply bind_inv in H. destruct H as [[fi err] [s1 [H1 H2]]].
    rewrite Lstat_steps in H1. inversion H1; subst; clear H1.
    assert (S1 : steps s (set_trace (trace s ++
               [SysLstat (filepath.Join path name)]) s))
      by (apply steps_call; reflexivity).
    destruct (notnil err).
    + apply bind_inv in H2. destruct H2 as [e [s2 [H2 H3]]].
      apply fn_quiet in H2. destruct H2 as [-> S2].
      cbn in H3. apply IH in H3. destruct H3 as [-> S3].
      split; [reflexivity|]. eauto using steps_trans.
    + destruct fi as [fi|]; [|discriminate].
      apply bind_inv in H2. destruct H2 as [e [s2 [H2 H3]]].
      apply Hrec in H2. destruct H2 as [-> S2].
      cbn in H3. apply IH in H3. destruct H3 as [-> S3].
      split; [reflexivity|]. eauto using steps_trans.
Qed.

Lemma walk_quiet fuel : forall path info, quiet (filepath.walk fuel path info fn).
Proof.
  induction fuel as [|fuel IH]; intros path info s r s'.
  - discriminate.
  - cbn [filepath.walk]. destruct (negb (IsDir info)).
    + apply fn_quiet.
    + intros H. apply bind_inv in H. destruct H as [[names err] [s1 [H1 H2]]].
      rewrite readDirNames_steps in H1. inversion H1; subst; clear H1.
      assert (S1 : steps s (set_trace (trace s ++ [SysReadDir path]) s))
        by (apply steps_call; reflexivity).
      apply bind_inv in H2. destruct H2 as [e1 [s2 [H2 H3]]].
      apply fn_quiet in H2. destruct H2 as [-> S2].
      destruct (notnil err); cbn in H3.
      * inversion H3; subst. split; [reflexivity|]. eauto using steps_trans.
      * apply walk_names_quiet in H3; [|intros p i; apply IH].
        destruct H3 as [-> S3]. split; [reflexivity|].
        eauto using steps_trans.
Qed.

Lemma Walk_quiet fuel root : quiet (filepath.Walk fuel root fn).
Proof.
  intros s r s'. unfold filepath.Walk. intros H.
  apply bind_inv in H. destruct H as [[fi err] [s1 [H1 H2]]].
  rewrite Lstat_steps in H1. inversion H1; subst; clear H1.
  assert (S1 : steps s (set_trace (trace s ++ [SysLstat root]) s))
    by (apply steps_call; reflexivity).
  apply bind_inv in H2. destruct H2 as [e [s2 [H2 H3]]].
  assert (e = None /\ steps (set_trace (trace s ++ [SysLstat root]) s) s2)
    as [-> S2].
  { destruct (notnil err).
    - apply fn_quiet in H2. exact H2.
    - destruct fi as [fi|]; [|discriminate].
      apply walk_quiet in H2. exact H2. }
  cbn in H3. inversion H3; subst. split; [reflexivity|].
  eauto using steps_trans.
Qed.

End Walk.

(** ** Paths in the tree *)

Lemma lookup_app x pre es :
  ~ In x (map fst pre) -> lookup x (pre ++ es) = lookup x es.
Proof.
  induction pre as [|[y n] pre IH]; cbn; intros H; [reflexivity|].
  destruct (String.eqb_spec x y) as [->|_]; [tauto|]. apply IH. tauto.
Qed.

Lemma alter_entry_app f x pre es :
  ~ In x (map fst pre) ->
  alter_entry f x (pre ++ es) = pre ++ alter_entry f x es.
Proof.
  induction pre as [|[y n] pre IH]; cbn; intros H; [reflexivity|].
  destruct (String.eqb_spec x y) as [->|_]; [tauto|].
  rewrite IH by tauto. reflexivity.
Qed.

Lemma alter_entry_ext f g x es :
  (forall n, f n = g n) -> alter_entry f x es = alter_entry g x es.
Proof.
  intros H. induction es as [|[y n] es IH]; cbn; [reflexivity|].
  rewrite H, IH. reflexivity.
Qed.

Lemma alter_entry_id f x es n :
  lookup x es = Some n -> f n = Some n -> alter_entry f x es = es.
Proof.
  induction es as [|[y m] es IH]; cbn; [discriminate|].
  destruct (String.eqb_spec x y) as [->|_].
  - intros [= ->] ->. reflexivity.
  - intros H1 H2. rewrite IH by assumption. reflexivity.
Qed.

Lemma lookup_alter_entry f x es n n' :
  lookup x es = Some n -> f n = Some n' ->
  lookup x (alter_entry f x es) = Some n'.
Proof.
  induction es as [|[y m] es IH]; cbn; [discriminate|].
  destruct (String.eqb_spec x y) as [->|Hne].
  - intros [= ->] ->. cbn. rewrite String.eqb_refl. reflexivity.
  - intros H1 H2. cbn. destruct (String.eqb_spec x y); [tauto|]. auto.
Qed.

Lemma alter_entry_twice f g x es :
  (forall n, f n <> None) ->
  alter_entry g x (alter_entry f x es) =
  alter_entry (fun n => match f n with Some m => g m | None => None end) x es.
Proof.
  intros Hf. induction es as [|[y m] es IH]; cbn; [reflexivity|].
  destruct (String.eqb_spec x y) as [->|Hne].
  - specialize (Hf m). destruct (f m); [|tauto].
    cbn. rewrite String.eqb_refl. reflexivity.
  - cbn. destruct (String.eqb_spec x y); [tauto|]. rewrite IH. reflexivity.
Qed.

Lemma find_snoc p : forall ents x,
  p <> [] ->
  find ents (p ++ [x]) =
  match find ents p with
  | Some (Dir _ _ sub) => lookup x sub
  | _ => None
  end.
Proof.
  induction p as [|y q IH]; intros ents x Hne; [contradiction|].
  destruct q as [|z q].
  - reflexivity.
  - change (find ents ((y :: z :: q) ++ [x]))
      with (match lookup y ents with
            | Some (Dir _ _ sub) => find sub ((z :: q) ++ [x])
            | _ => None
            end).
    change (find ents (y :: z :: q))
      with (match lookup y ents with
            | Some (Dir _ _ sub) => find sub (z :: q)
            | _ => None
            end).
    destruct (lookup y ents) as [[a|a rd sub|e]|]; try reflexivity.
    apply IH. discriminate.
Qed.

Lemma alter_snoc f x p : forall ents,
  p <> [] ->
  alter f (p ++ [x]) ents = alter (into_dir (alter_entry f x)) p ents.
Proof.
  induction p as [|y q IH]; intros ents Hne; [contradiction|].
  destruct q as [|z q].
  - reflexivity.
  - change (alter f ((y :: z :: q) ++ [x]) ents)
      with (alter_entry (into_dir (alter f ((z :: q) ++ [x]))) y ents).
    change (alter (into_dir (alter_entry f x)) (y :: z :: q) ents)
      with (alter_entry
              (into_dir (alter (into_dir (alter_entry f x)) (z :: q))) y ents).
    apply alter_entry_ext. intros [a|a rd sub|e]; try reflexivity.
    cbn [into_dir]. rewrite IH by discriminate. reflexivity.
Qed.

Lemma find_alter f p : forall ents n n',
  find ents p = Some n -> f n = Some n' ->
  find (alter f p ents) p = Some n'.
Proof.
  induction p as [|y q IH]; intros ents n n' Hfind Hf; [discriminate|].
  destruct q as [|z q].
  - cbn in *. eapply lookup_alter_entry; eassumption.
  - change (find ents (y :: z :: q))
      with (match lookup y ents with
            | Some (Dir _ _ sub) => find sub (z :: q)
            | _ => None
            end) in Hfind.
    change (alter f (y :: z :: q) ents)
      with (alter_entry (into_dir (alter f (z :: q))) y ents).
    destruct (lookup y ents) as [[a|a rd sub|e]|] eqn:E; try discriminate.
    change (find ?r (y :: z :: q))
      with (match lookup y r with
            | Some (Dir _ _ sub) => find sub (z :: q)
            | _ => None
            end).
    erewrite lookup_alter_entry; [|exact E|reflexivity].
    eapply IH; eassumption.
Qed.

Lemma alter_id p : forall ents n,
  find ents p = Some n -> alter (fun _ => Some n) p ents = ents.
Proof.
  induction p as [|y q IH]; intros ents n Hfind; [reflexivity|].
  destruct q as [|z q].
  - cbn in *. eapply alter_entry_id; [eassumption|reflexivity].
  - change (find ents (y :: z :: q))
      with (match lookup y ents with
            | Some (Dir _ _ sub) => find sub (z :: q)
            | _ => None
            end) in Hfind.
    change (alter (fun _ => Some n) (y :: z :: q) ents)
      with (alter_entry (into_dir (alter (fun _ => Some n) (z :: q))) y ents).
    destruct (lookup y ents) as [[a|a rd sub|e]|] eqn:E; try discriminate.
    eapply alter_entry_id; [exact E|]. cbn [into_dir].
    rewrite IH by assumption. reflexivity.
Qed.

Lemma alter_over o g p : forall ents,
  alter (fun _ => o) p (alter (into_dir g) p ents) = alter (fun _ => o) p ents.
Proof.
  induction p as [|y q IH]; intros ents; [reflexivity|].
  destruct q as [|z q].
  - cbn. rewrite alter_entry_twice.
    + apply alter_entry_ext. intros [a|a rd sub|e]; reflexivity.
    + intros [a|a rd sub|e]; discriminate.
  - change (alter (into_dir g) (y :: z :: q) ents)
      with (alter_entry (into_dir (alter (into_dir g) (z :: q))) y ents).
    change (alter (fun _ => o) (y :: z :: q) ?r)
      with (alter_entry (into_dir (alter (fun _ => o) (z :: q))) y r).
    rewrite alter_entry_twice.
    + apply alter_entry_ext. intros [a|a rd sub|e]; try reflexivity.
      cbn [into_dir]. rewrite IH. reflexivity.
    + intros [a|a rd sub|e]; discriminate.
Qed.

(** ** The walk of [Run] is the sweep of the tree *)

Lemma distinct_NoDup (names : list string) : distinct names = true <-> NoDup names.
Proof.
  induction names as [|x rest IH]; cbn.
  - split; [constructor | reflexivity].
  - rewrite andb_true_iff, negb_true_iff, IH. split.
    + intros [H1 H2]. constructor; [|exact H2].
      intros Hin. apply not_true_iff_false in H1. apply H1.
      apply existsb_exists. exists x. split; [exact Hin|].
      apply String.eqb_refl.
    + intros H. inversion H as [|? ? Hin Hnd]; subst. split; [|exact Hnd].
      apply not_true_iff_false. intros Hex.
      apply existsb_exists in Hex. destruct Hex as [y [Hy Heq]].
      apply String.eqb_eq in Heq. subst. contradiction.
Qed.

Lemma count_up_add a b z : count_up (a + b) z = count_up b (count_up a z).
Proof.
  unfold count_up. rewrite Nat.add_comm. apply Nat.iter_add.
Qed.

Lemma height_pos n : (1 <= height n)%nat.
Proof. destruct n; cbn; lia. Qed.

Lemma sweep_ents_cons th x m es :
  sweep_ents th ((x, m) :: es) = keep x (sweep_node th m) ++ sweep_ents th es.
Proof. reflexivity. Qed.

Lemma map_fst_keep pre x m o es :
  NoDup (map fst (pre ++ (x, m) :: es)) ->
  NoDup (map fst ((pre ++ keep x o) ++ es)).
Proof.
  intros H. destruct o as [k|]; cbn.
  - rewrite <- app_assoc. rewrite map_app in *. exact H.
  - rewrite app_nil_r. rewrite map_app in *. cbn in H.
    eapply NoDup_remove_1. exact H.
Qed.

Lemma not_in_pre (pre es : list (string * node)) (x : string) (m : node) :
  NoDup (map fst (pre ++ (x, m) :: es)) -> ~ In x (map fst pre).
Proof.
  rewrite map_app. cbn. intros H Hin.
  apply NoDup_remove_2 in H. apply H. apply in_or_app. left. exact Hin.
Qed.

Section Sweep.

Variable th : time.Time.

Lemma walk_names_sweep fuel p a :
  walk_spec th fuel -> p <> [] ->
  forall es pre s,
    find (roots s) p = Some (Dir a None (pre ++ es)) ->
    NoDup (map fst (pre ++ es)) ->
    forallb (fun e => wf_node (snd e)) es = true ->
    (list_max (map (fun e => height (snd e)) es) <= fuel)%nat ->
    exists s',
      filepath.walk_names
        (fun q i => filepath.walk fuel q i (walkFn th)) (walkFn th) p
        (map fst es) s = Done None s' /\
      roots s' =
        alter (fun _ => Some (Dir a None (pre ++ sweep_ents th es))) p
              (roots s) /\
      deletedCount s' =
        count_up (list_sum (map (fun e => deleted_in th (snd e)) es))
                 (deletedCount s) /\
      errorCount s' =
        count_up (list_sum (map (fun e => failed_in th (snd e)) es))
                 (errorCount s).
Proof.
  intros Hwalk Hp. induction es as [|[x m] es IH]; intros pre s Hfind Hnd Hwf Hh.
  - exists s. repeat split.
    symmetry. apply alter_id. exact Hfind.
  - cbn [map fst filepath.walk_names].
    erewrite bind_Done; [|apply Lstat_steps].
    set (s1 := set_trace _ s).
    assert (Hx : ~ In x (map fst pre)) by (eapply not_in_pre; exact Hnd).
    assert (Hm : find (roots s) (filepath.Join p x) = Some m).
    { unfold filepath.Join. rewrite find_snoc by exact Hp.
      rewrite Hfind.
      rewrite lookup_app by exact Hx. cbn. rewrite String.eqb_refl.
      reflexivity. }
    rewrite Hm.
    cbn [forallb snd] in Hwf. apply andb_true_iff in Hwf.
    destruct Hwf as [Hwfm Hwf].
    cbn [map list_max fold_right snd] in Hh.
    assert (Hhm : (height m <= fuel)%nat) by lia.
    assert (Hhes : (list_max (map (fun e => height (snd e)) es) <= fuel)%nat)
      by (unfold list_max; lia).
    destruct (stat_of (Some m)) as [fi err] eqn:Estat.
    destruct err as [e|]; cbn [notnil].
    + (* the entry cannot be examined *)
      assert (Em : m = NoStat e).
      { destruct m; cbn in Estat; inversion Estat; reflexivity. }
      subst m.
      destruct (IH (pre ++ [(x, NoStat e)])
                   (set_Logger (Logger s1 ++
                      [mkEntry WarnLevel "task log"
                         [zap.String "task" Name;
                          zap.String "type" "loopRun";
                          zap.String "path"
                            (path_string (filepath.Join p x));
                          zap.String "msg" "error accessing path";
                          zap.Error e]]) s1))
        as [s' [Hrun [Hroots [Hdel Herr]]]].
      * cbn [roots set_Logger]. change (roots s1) with (roots s).
        rewrite <- app_assoc. exact Hfind.
      * rewrite <- app_assoc. exact Hnd.
      * exact Hwf.
      * exact Hhes.
      * exists s'. split; [|split; [|split]].
        -- exact Hrun.
        -- rewrite Hroots. rewrite <- app_assoc. reflexivity.
        -- rewrite Hdel. reflexivity.
        -- rewrite Herr. reflexivity.
    + (* a file or a directory: the recursive call *)
      assert (Efi : exists i, fi = Some i).
      { destruct m; cbn in Estat; inversion Estat; eauto. }
      destruct Efi as [i ->].
      destruct (Hwalk (filepath.Join p x) m i s1) as [s2 [Hrun2 [Hroots2 [Hdel2 Herr2]]]];
        try assumption.
      { unfold filepath.Join. destruct p; [contradiction | discriminate]. }
      erewrite bind_Done; [|exact Hrun2]. cbn [notnil].
      assert (Hfind2 : find (roots s2) p =
                Some (Dir a None ((pre ++ keep x (sweep_node th m)) ++ es))).
      { rewrite Hroots2. unfold filepath.Join.
        rewrite alter_snoc by exact Hp. change (roots s1) with (roots s).
        erewrite find_alter; [reflexivity | exact Hfind |].
        cbn [into_dir]. rewrite alter_entry_app by exact Hx.
        cbn [alter_entry]. rewrite String.eqb_refl.
        rewrite <- app_assoc.
        destruct (sweep_node th m); reflexivity. }
      destruct (IH (pre ++ keep x (sweep_node th m)) s2)
        as [s' [Hrun [Hroots [Hdel Herr]]]].
      * exact Hfind2.
      * eapply map_fst_keep. exact Hnd.
      * exact Hwf.
      * exact Hhes.
      * exists s'. split; [|split; [|split]].
        -- exact Hrun.
        -- rewrite Hroots, Hroots2. unfold filepath.Join.
           rewrite alter_snoc by exact Hp. rewrite alter_over.
           change (roots s1) with (roots s).
           rewrite sweep_ents_cons, <- app_assoc. reflexivity.
        -- rewrite Hdel, Hdel2. cbn [map list_sum fold_right snd].
           rewrite count_up_add. reflexivity.
        -- rewrite Herr, Herr2. cbn [map list_sum fold_right snd].
           rewrite count_up_add. reflexivity.
Qed.

Lemma walk_sweep fuel : walk_spec th fuel.
Proof.
  induction fuel as [|fuel IHfuel]; intros p n i s Hp Hfind Hstat Hwf Hh.
  - pose proof (height_pos n). lia.
  - destruct n as [a|a rd ents|e]; cbn in Hstat; inversion Hstat; subst i;
      clear Hstat.
    + (* a file *)
      cbn [filepath.walk info_of IsDir negb]. unfold walkFn.
      cbn [info_of IsDir ModTime sweep_node deleted_in failed_in].
      change (time.Before (mtime a) th) with (stale th a).
      destruct (stale th a).
      * run_prims. cbn [roots set_trace]. rewrite Hfind. cbn [unlink_of].
        destruct (unlink_err a) as [e|].
        -- eexists. split; [reflexivity|]. cbn. repeat split.
           symmetry. apply alter_id. exact Hfind.
        -- eexists. split; [reflexivity|]. cbn. repeat split.
      * eexists. split; [reflexivity|]. cbn. repeat split.
        symmetry. apply alter_id. exact Hfind.
    + (* a directory *)
      cbn [filepath.walk info_of IsDir negb].
      erewrite bind_Done; [|apply readDirNames_steps].
      rewrite Hfind.
      destruct rd as [e|]; cbn [names_of].
      * eexists. split; [reflexivity|]. cbn. repeat split.
        symmetry. apply alter_id. exact Hfind.
      * cbn [wf_node] in Hwf. apply andb_true_iff in Hwf.
        destruct Hwf as [Hnd Hwf]. apply distinct_NoDup in Hnd.
        cbn [height] in Hh.
        destruct (walk_names_sweep fuel p a IHfuel Hp ents []
                    (set_trace (trace s ++ [SysReadDir p]) s))
          as [s' [Hrun [Hroots [Hdel Herr]]]]; try assumption.
        -- lia.
        -- exists s'. split; [exact Hrun|]. split; [exact Hroots|].
           split; assumption.
Qed.

End Sweep.

Lemma wrap_incr x : int.incr (int.wrap x) = int.wrap (x + 1).
Proof.
  unfold int.incr, int.add, int.wrap.
  replace ((x + 2 ^ 63) mod 2 ^ 64 - 2 ^ 63 + 1 + 2 ^ 63)
    with ((x + 2 ^ 63) mod 2 ^ 64 + 1) by lia.
  rewrite Z.add_mod_idemp_l by (vm_compute; discriminate).
  replace (x + 2 ^ 63 + 1) with (x + 1 + 2 ^ 63) by lia. reflexivity.
Qed.

Lemma count_up_wrap n : count_up n 0 = int.wrap (Z.of_nat n).
Proof.
  induction n as [|n IH]; [reflexivity|].
  change (count_up (S n) 0) with (int.incr (count_up n 0)).
  rewrite IH, wrap_incr. f_equal. lia.
Qed.

Lemma wrap_small z : - 2 ^ 63 <= z < 2 ^ 63 -> int.wrap z = z.
Proof.
  intros H. unfold int.wrap. rewrite Z.mod_small; lia.
Qed.

Lemma Walk_sweep th fuel t s n :
  find (roots s) [t] = Some n ->
  wf_node n = true ->
  (height n <= fuel)%nat ->
  exists s',
    filepath.Walk fuel [t] (walkFn th) s = Done None s' /\
    roots s' = alter (fun _ => sweep_node th n) [t] (roots s) /\
    deletedCount s' = count_up (deleted_in th n) (deletedCount s) /\
    errorCount s' = count_up (failed_in th n) (errorCount s).
Proof.
  intros Hfind Hwf Hh. unfold filepath.Walk.
  erewrite bind_Done; [|apply Lstat_steps]. rewrite Hfind.
  destruct (stat_of (Some n)) as [fi err] eqn:Estat.
  destruct err as [e|]; cbn [notnil].
  - assert (n = NoStat e) as ->
        by (destruct n; cbn in Estat; inversion Estat; reflexivity).
    eexists. split; [reflexivity|]. cbn [roots set_Logger set_trace
      deletedCount errorCount sweep_node deleted_in failed_in count_up Nat.iter].
    repeat split. symmetry. apply (alter_id [t]). exact Hfind.
  - assert (exists i, fi = Some i) as [i ->]
        by (destruct n; cbn in Estat; inversion Estat; eauto).
    destruct (walk_sweep th fuel [t] n i
                (set_trace (trace s ++ [SysLstat [t]]) s))
      as [s' [Hrun [Hroots [Hdel Herr]]]]; try assumption; [discriminate|].
    erewrite bind_Done; [|exact Hrun].
    exists s'. split; [reflexivity|]. split; [exact Hroots|].
    split; assumption.
Qed.

(** A sweep of a well-formed tree, with fuel for its height: [loopRun]
    ends without error, the tree is swept and the record of the sweep carries
    the two counts. *)
Lemma loopRun_sweep fuel t s n :
  find (roots s) [t] = Some n ->
  wf_node n = true ->
  (height n <= fuel)%nat ->
  let th := twoHoursAgo (clock s) in
  exists s' l,
    loopRun fuel t s = Done None s' /\
    roots s' = alter (fun _ => sweep_node th n) [t] (roots s) /\
    Logger s' =
      Logger s ++ l ++
      [sweep_entry (int.wrap (Z.of_nat (deleted_in th n)))
                   (int.wrap (Z.of_nat (failed_in th n)))] /\
    steps s s'.
Proof.
  intros Hfind Hwf Hh th. unfold loopRun.
  set (s0 := set_errorCount 0 (set_deletedCount 0 s)).
  destruct (Walk_sweep th fuel t s0 n Hfind Hwf Hh)
    as [s1 [Hrun [Hroots [Hdel Herr]]]].
  pose proof (Walk_quiet _ (walkFn_quiet th) fuel [t] s0 None s1 Hrun)
    as [_ Hsteps].
  destruct (st_Logger _ _ Hsteps) as [l Hl].
  change (Logger s0) with (Logger s) in Hl.
  change (deletedCount s0) with 0 in Hdel.
  change (errorCount s0) with 0 in Herr.
  rewrite count_up_wrap in Hdel, Herr.
  exists (set_Logger (Logger s1 ++
            [sweep_entry (deletedCount s1) (errorCount s1)]) s1), l.
  split; [|split; [|split]].
  - unfold time_.Now, gets, modify. unfold bind at 1 2 3.
    fold s0. fold th. erewrite bind_Done; [|exact Hrun]. reflexivity.
  - exact Hroots.
  - cbn [Logger set_Logger]. rewrite Hl, Hdel, Herr, <- app_assoc.
    reflexivity.
  - apply steps_trans with s0.
    + apply steps_trans with (set_deletedCount 0 s);
        [apply steps_deletedCount | apply steps_errorCount].
    + apply steps_trans with s1; [exact Hsteps | apply steps_log].
Qed.

(** The same for [Run] in SteadyState, past the existence check. *)
Lemma Run_sweep fuel ctx s n :
  firstRun (this s) = false ->
  find (roots s) [tempDir_of s] = Some n ->
  n <> NoStat ErrNotExist ->
  wf_node n = true ->
  (height n <= fuel)%nat ->
  let th := twoHoursAgo (clock s) in
  exists s' l,
    Run fuel ctx s = Done None s' /\
    roots s' = alter (fun _ => sweep_node th n) [tempDir_of s] (roots s) /\
    Logger s' =
      Logger s ++ l ++
      [sweep_entry (int.wrap (Z.of_nat (deleted_in th n)))
                   (int.wrap (Z.of_nat (failed_in th n)))] /\
    steps s s'.
Proof.
  intros Hfr Hfind Hn Hwf Hh th.
  assert (Hstat : os.IsNotExist (stat_err s) = false).
  { unfold stat_err. rewrite Hfind.
    destruct n as [a|a rd ents|e]; try reflexivity.
    destruct e; try reflexivity. contradiction. }
  rewrite (Run_checked _ _ _ Hstat), Hfr.
  destruct (loopRun_sweep fuel (tempDir_of s) (checked s) n Hfind Hwf Hh)
    as [s' [l [Hrun [Hroots [Hlog Hsteps]]]]].
  exists s', l. split; [exact Hrun|]. split; [exact Hroots|].
  split; [exact Hlog|].
  apply steps_trans with (checked s); [|exact Hsteps].
  apply steps_call. reflexivity.
Qed.

(** ** Invocations in SteadyState *)

Lemma no_wipe_filter t :
  forallb (fun c => negb (is_wipe c)) t = true -> filter is_wipe t = [].
Proof.
  induction t as [|c t IH]; cbn; [reflexivity|].
  destruct (is_wipe c); cbn; [discriminate | exact IH].
Qed.

Lemma steps_wipes s s' :
  steps s s' -> filter is_wipe (trace s') = filter is_wipe (trace s).
Proof.
  intros H. destruct (st_trace _ _ H) as [t [-> Ht]].
  rewrite filter_app, (no_wipe_filter _ Ht), app_nil_r. reflexivity.
Qed.

Lemma loopRun_quiet fuel t : quiet (loopRun fuel t).
Proof.
  intros s r s'. unfold loopRun, time_.Now, gets, modify.
  unfold bind at 1 2 3.
  set (s0 := set_errorCount 0 (set_deletedCount 0 s)).
  intros H. apply bind_inv in H. destruct H as [e [s1 [H1 H2]]].
  apply (Walk_quiet _ (walkFn_quiet _)) in H1. destruct H1 as [-> S1].
  cbn in H2. inversion H2; subst; clear H2. split; [reflexivity|].
  apply steps_trans with s0.
  - apply steps_trans with (set_deletedCount 0 s);
      [apply steps_deletedCount | apply steps_errorCount].
  - eapply steps_trans; [exact S1 | apply steps_log].
Qed.

(** In SteadyState an invocation that ends leaves the instance as it is and
    makes no call of the wipe; past the existence check its error is nil. *)
Lemma Run_steady fuel ctx s r s' :
  firstRun (this s) = false ->
  Run fuel ctx s = Done r s' ->
  steps s s' /\ (os.IsNotExist (stat_err s) = false -> r = None).
Proof.
  intros Hfr. destruct (os.IsNotExist (stat_err s)) eqn:E.
  - rewrite (Run_missing _ _ _ E). intros H. inversion H; subst.
    split; [|discriminate].
    apply steps_trans with (checked s);
      [apply steps_call; reflexivity | apply (steps_log (checked s))].
  - rewrite (Run_checked _ _ _ E), Hfr. intros H.
    apply loopRun_quiet in H. destruct H as [-> S1].
    split; [|reflexivity].
    apply steps_trans with (checked s);
      [apply steps_call; reflexivity | exact S1].
Qed.


(** ** A failed wipe *)




(** ** A walk that cannot proceed *)

(** C2, on the code: the target directory exists but cannot be read, or
    cannot be examined when the walk starts, so the walk cannot proceed; the
    walk function logs the error and returns nil, [filepath.Walk] returns
    nil, and [Run] records a success with both counts at zero and returns
    nil. *)
Theorem C2_unreadable_root_reported_as_success :
  stat_err s_unreadable = None /\
  firstRun (this s_unreadable) = false /\
  (exists s' warning,
     Run 1 context.Background s_unreadable = Done None s' /\
     Logger s' = [warning; sweep_entry 0 0] /\
     level warning = WarnLevel /\
     roots s' = roots s_unreadable) /\
  (exists s' warning,
     Run 1 context.Background (s_denied false) = Done None s' /\
     Logger s' = [warning; sweep_entry 0 0] /\
     level warning = WarnLevel /\
     trace s' = [SysStat ["storage/temp"]; SysLstat ["storage/temp"]]).
Proof.
  split; [reflexivity|]. split; [reflexivity|]. split.
  - eexists. eexists. split; [vm_compute; reflexivity|].
    split; [reflexivity|]. split; reflexivity.
  - eexists. eexists. split; [vm_compute; reflexivity|].
    split; [reflexivity|]. split; reflexivity.
Qed.

(** ** Cancellation *)




(** ** Removals that fail *)

(** C5: in SteadyState, on a well-formed tree and with fuel for its height,
    [Run] returns no error whatever removals fail; the record of the sweep
    counts the stale files whose removal succeeded as deleted and those whose
    removal failed as errors (as Go [int]s), and the files left are those the
    sweep leaves. *)
Theorem C5_partial_failure_is_counted fuel ctx s n :
  firstRun (this s) = false ->
  find (roots s) [tempDir_of s] = Some n ->
  n <> NoStat ErrNotExist ->
  wf_node n = true ->
  (height n <= fuel)%nat ->
  let th := twoHoursAgo (clock s) in
  exists s' warnings,
    Run fuel ctx s = Done None s' /\
    Logger s' =
      Logger s ++ warnings ++
      [sweep_entry (int.wrap (Z.of_nat (deleted_in th n)))
                   (int.wrap (Z.of_nat (failed_in th n)))] /\
    roots s' = alter (fun _ => sweep_node th n) [tempDir_of s] (roots s) /\
    (Z.of_nat (deleted_in th n) < 2 ^ 63 ->
     int.wrap (Z.of_nat (deleted_in th n)) = Z.of_nat (deleted_in th n)) /\
    (Z.of_nat (failed_in th n) < 2 ^ 63 ->
     int.wrap (Z.of_nat (failed_in th n)) = Z.of_nat (failed_in th n)).
Proof.
  intros Hfr Hfind Hn Hwf Hh th.
  destruct (Run_sweep fuel ctx s n Hfr Hfind Hn Hwf Hh)
    as [s' [l [Hrun [Hroots [Hlog _]]]]].
  exists s', l. split; [exact Hrun|]. split; [exact Hlog|].
  split; [exact Hroots|].
  split; intros H; apply wrap_small; lia.
Qed.

Lemma C5_witness :
  firstRun (this s_ten) = false /\
  wf_node (plain_dir
    [("f0", plain_file 0); ("f1", plain_file 0); ("f2", plain_file 0);
     ("f3", plain_file 0); ("f4", locked_file 0); ("f5", plain_file 0);
     ("f6", plain_file 0); ("f7", plain_file 0); ("f8", plain_file 0);
     ("f9", plain_file 0)]) = true /\
  exists s' warnings,
    Run 2 context.Background s_ten = Done None s' /\
    Logger s' = Logger s_ten ++ warnings ++ [sweep_entry 9 1] /\
    roots s' = [("storage/temp", plain_dir [("f4", locked_file 0)])].
Proof.
  split; [reflexivity|]. split; [reflexivity|].
  destruct (C5_partial_failure_is_counted 2 context.Background s_ten
    (plain_dir
      [("f0", plain_file 0); ("f1", plain_file 0); ("f2", plain_file 0);
       ("f3", plain_file 0); ("f4", locked_file 0); ("f5", plain_file 0);
       ("f6", plain_file 0); ("f7", plain_file 0); ("f8", plain_file 0);
       ("f9", plain_file 0)]))
    as [s' [l [Hrun [Hlog [Hroots _]]]]].
  - reflexivity.
  - reflexivity.
  - discriminate.
  - reflexivity.
  - cbn. lia.
  - exists s', l. split; [exact Hrun|]. split; [exact Hlog | exact Hroots].
Defined.

(** ** Other failures of the existence check *)

(** C10: when the [Stat] of the check fails with an error that is not a
    not-exist error, [Run] goes on exactly as it does when the check
    succeeds: in FirstRun the flag is cleared and the next call is the
    recursive delete, in SteadyState the next call is the [Lstat] of the
    walk; no record of a missing directory is written. *)
Theorem C10_only_not_exist_short_circuits fuel ctx s e :
  stat_err s = Some e ->
  e <> ErrNotExist ->
  Run fuel ctx s =
    (if firstRun (this s) then startupRun (tempDir_of s)
     else loopRun fuel (tempDir_of s)) (checked s) /\
  (forall s2, stat_err s2 = None ->
     Run fuel ctx s2 =
       (if firstRun (this s2) then startupRun (tempDir_of s2)
        else loopRun fuel (tempDir_of s2)) (checked s2)) /\
  exists r s' calls,
    Run fuel ctx s = Done r s' /\
    trace s' =
      trace s ++ SysStat [tempDir_of s] ::
      (if firstRun (this s) then SysRemoveAll [tempDir_of s]
       else SysLstat [tempDir_of s]) :: calls /\
    (firstRun (this s) = true -> firstRun (this s') = false) /\
    ~ In (missing_entry (tempDir_of s)) (skipn (List.length (Logger s)) (Logger s')).
Proof.
  intros Hstat He.
  assert (Hne : os.IsNotExist (stat_err s) = false).
  { rewrite Hstat. destruct e; try reflexivity. contradiction. }
  split; [apply Run_checked; exact Hne|].
  split; [intros s2 H2; apply Run_checked; rewrite H2; reflexivity|].
  rewrite (Run_checked _ _ _ Hne).
  assert (Hn : find (roots s) [tempDir_of s] = Some (NoStat e)).
  { unfold stat_err in Hstat.
    destruct (find (roots s) [tempDir_of s]) as [[a|a rd ents|e']|];
      cbn in Hstat; inversion Hstat; subst; try reflexivity. contradiction. }
  assert (Hrm : removeAll_node (NoStat e) = (Some (NoStat e), Some e)).
  { cbn. destruct e; try reflexivity. contradiction. }
  destruct (firstRun (this s)).
  - unfold startupRun. run_prims. cbn [roots set_firstRun set_trace checked].
    rewrite Hn, Hrm. cbv beta iota.
    eexists. eexists. exists []. split; [reflexivity|].
    cbn [trace set_Logger set_roots set_trace set_firstRun checked Logger
         this firstRun].
    rewrite <- app_assoc. split; [reflexivity|]. split; [reflexivity|].
    rewrite skipn_app, Nat.sub_diag, skipn_all. cbn.
    intros [H|[]]. discriminate.
  - unfold loopRun, filepath.Walk. run_prims.
    cbn [roots set_trace set_deletedCount set_errorCount checked].
    rewrite Hn. cbn [stat_of notnil].
    unfold walkFn. run_prims. cbn [err_is orb].
    eexists. eexists. exists []. split; [reflexivity|].
    cbn [trace set_Logger set_roots set_trace set_firstRun checked Logger
         this firstRun set_deletedCount set_errorCount deletedCount
         errorCount].
    rewrite <- app_assoc. split; [reflexivity|]. split; [discriminate|].
    rewrite <- app_assoc, skipn_app, Nat.sub_diag, skipn_all. cbn.
    intros [H|[H|[]]]; discriminate.
Qed.

Lemma C10_witness :
  stat_err (s_denied true) = Some ErrPermission /\
  ErrPermission <> ErrNotExist /\
  exists s',
    Run 0 context.Background (s_denied true) = Done (Some ErrPermission) s' /\
    trace s' = [SysStat ["storage/temp"]; SysRemoveAll ["storage/temp"]].
Proof.
  split; [reflexivity|]. split; [discriminate|].
  destruct (C10_only_not_exist_short_circuits 0 context.Background
              (s_denied true) ErrPermission) as [H _];
    [reflexivity | discriminate |].
  eexists. split; [rewrite H; vm_compute; reflexivity | reflexivity].
Defined.

(** ** The files a sweep removes *)

Lemma lookup_In x ents m : lookup x ents = Some m -> In (x, m) ents.
Proof.
  induction ents as [|[y k] es IH]; cbn; [discriminate|].
  destruct (String.eqb_spec x y) as [->|_].
  - intros [= ->]. left. reflexivity.
  - intros H. right. apply IH. exact H.
Qed.

Lemma lookup_notin x ents : ~ In x (map fst ents) -> lookup x ents = None.
Proof.
  induction ents as [|[y k] es IH]; cbn; [reflexivity|].
  intros H. destruct (String.eqb_spec x y) as [->|_]; [tauto|].
  apply IH. tauto.
Qed.

Lemma lookup_keep x y o es :
  lookup x (keep y o ++ es) =
  if String.eqb x y then match o with Some n => Some n | None => lookup x es end
  else lookup x es.
Proof.
  destruct o as [n|]; cbn.
  - destruct (String.eqb x y); reflexivity.
  - destruct (String.eqb x y); reflexivity.
Qed.

Lemma lookup_sweep_ents th x ents :
  NoDup (map fst ents) ->
  lookup x (sweep_ents th ents) =
  match lookup x ents with
  | Some m => sweep_node th m
  | None => None
  end.
Proof.
  induction ents as [|[y k] es IH]; cbn [map fst]; intros Hnd; [reflexivity|].
  inversion Hnd as [|? ? Hy Hes]; subst.
  rewrite sweep_ents_cons, lookup_keep. cbn [lookup].
  destruct (String.eqb_spec x y) as [->|_].
  - destruct (sweep_node th k); [reflexivity|].
    rewrite IH by exact Hes. rewrite (lookup_notin _ _ Hy). reflexivity.
  - apply IH. exact Hes.
Qed.

Lemma find_sweep_ents th q : forall ents a,
  NoDup (map fst ents) ->
  forallb (fun e => wf_node (snd e)) ents = true ->
  find ents q = Some (File a) ->
  reached ents q = true ->
  find (sweep_ents th ents) q = sweep_node th (File a).
Proof.
  induction q as [|x q IH]; intros ents a Hnd Hwf Hfind Hreach;
    [discriminate|].
  destruct q as [|z q].
  - cbn [find] in *. rewrite lookup_sweep_ents by exact Hnd.
    rewrite Hfind. reflexivity.
  - change (find ents (x :: z :: q))
      with (match lookup x ents with
            | Some (Dir _ _ sub) => find sub (z :: q)
            | _ => None
            end) in Hfind.
    change (reached ents (x :: z :: q))
      with (match lookup x ents with
            | Some (Dir _ None sub) => reached sub (z :: q)
            | _ => false
            end) in Hreach.
    change (find ?r (x :: z :: q))
      with (match lookup x r with
            | Some (Dir _ _ sub) => find sub (z :: q)
            | _ => None
            end).
    rewrite lookup_sweep_ents by exact Hnd.
    destruct (lookup x ents) as [[b|b rd sub|e]|] eqn:E; try discriminate.
    destruct rd as [e|]; [discriminate|].
    apply lookup_In in E.
    rewrite forallb_forall in Hwf. specialize (Hwf _ E).
    cbn [snd wf_node] in Hwf. apply andb_true_iff in Hwf.
    destruct Hwf as [Hd Hw]. apply distinct_NoDup in Hd.
    cbn [sweep_node]. apply IH; assumption.
Qed.

(** C4: in SteadyState, for a file below the target directory that the walk
    reaches, the file is gone after [Run] exactly when its modification time
    is strictly before the threshold and the system accepts the removal; so,
    the removal being accepted, it is deleted if and only if it is strictly
    older than now minus two hours.  A file modified exactly at the threshold
    is kept, one modified a nanosecond earlier is deleted. *)
Theorem C4_strictly_older_files_are_deleted fuel ctx s n x q a :
  firstRun (this s) = false ->
  find (roots s) [tempDir_of s] = Some n ->
  wf_node n = true ->
  (height n <= fuel)%nat ->
  find (roots s) (tempDir_of s :: x :: q) = Some (File a) ->
  reached (roots s) (tempDir_of s :: x :: q) = true ->
  let th := time.Add (clock s) (-2 * time.Hour) in
  exists s',
    Run fuel ctx s = Done None s' /\
    (find (roots s') (tempDir_of s :: x :: q) = None <->
     mtime a < th /\ unlink_err a = None) /\
    (unlink_err a = None ->
     (find (roots s') (tempDir_of s :: x :: q) = None <-> mtime a < th)) /\
    (mtime a = th ->
     find (roots s') (tempDir_of s :: x :: q) = Some (File a)) /\
    (mtime a = th - time.Nanosecond -> unlink_err a = None ->
     find (roots s') (tempDir_of s :: x :: q) = None).
Proof.
  intros Hfr Hroot Hwf Hh Hfile Hreach th.
  change (find (roots s) (tempDir_of s :: x :: q))
    with (match lookup (tempDir_of s) (roots s) with
          | Some (Dir _ _ sub) => find sub (x :: q)
          | _ => None
          end) in Hfile.
  change (reached (roots s) (tempDir_of s :: x :: q))
    with (match lookup (tempDir_of s) (roots s) with
          | Some (Dir _ None sub) => reached sub (x :: q)
          | _ => false
          end) in Hreach.
  cbn [find] in Hroot. rewrite Hroot in Hfile, Hreach.
  destruct n as [b|b rd sub|e]; try discriminate.
  destruct rd as [e|]; [discriminate|].
  destruct (Run_sweep fuel ctx s (Dir b None sub) Hfr Hroot) as
      [s' [l [Hrun [Hroots _]]]]; [discriminate | exact Hwf | exact Hh |].
  cbn [wf_node] in Hwf. apply andb_true_iff in Hwf.
  destruct Hwf as [Hd Hw]. apply distinct_NoDup in Hd.
  assert (Hres : find (roots s') (tempDir_of s :: x :: q) =
                 sweep_node th (File a)).
  { change (find (roots s') (tempDir_of s :: x :: q))
      with (match lookup (tempDir_of s) (roots s') with
            | Some (Dir _ _ sub) => find sub (x :: q)
            | _ => None
            end).
    rewrite Hroots. cbn [alter].
    erewrite lookup_alter_entry; [|exact Hroot|reflexivity].
    apply find_sweep_ents; assumption. }
  exists s'. split; [exact Hrun|].
  rewrite Hres. cbn [sweep_node]. unfold stale, time.Before.
  destruct (Z.ltb_spec (mtime a) th) as [Hlt|Hge].
  - destruct (unlink_err a) as [e|].
    + split; [split; [discriminate | intros [_ H]; discriminate]|].
      split; [discriminate|]. split; [lia | discriminate].
    + split; [tauto|]. split; [tauto|]. split; [lia | reflexivity].
  - split; [split; [discriminate | lia]|].
    split; [intros _; split; [discriminate | lia]|].
    split; [reflexivity|]. unfold time.Nanosecond. lia.
Qed.

(** Files of 30, 90 and 150 minutes: only the last one is deleted. *)
Example sweep_by_age :
  exists s',
    Run 2 context.Background
        (boot false noon
           (plain_dir
              [("m030", plain_file (noon - 30 * time.Minute));
               ("m090", plain_file (noon - 90 * time.Minute));
               ("m150", plain_file (noon - 150 * time.Minute))]))
    = Done None s' /\
    roots s' =
      [("storage/temp",
        plain_dir [("m030", plain_file (noon - 30 * time.Minute));
                   ("m090", plain_file (noon - 90 * time.Minute))])] /\
    Logger s' = [sweep_entry 1 0].
Proof.
  eexists. split; [vm_compute; reflexivity|]. split; reflexivity.
Qed.

Lemma C4_witness :
  firstRun (this s_boundary) = false /\
  find (roots s_boundary) ["storage/temp"; "sub"; "old"] =
    Some (plain_file (10 * time.Hour - 1)) /\
  reached (roots s_boundary) ["storage/temp"; "sub"; "old"] = true /\
  exists s',
    Run 3 context.Background s_boundary = Done None s' /\
    find (roots s') ["storage/temp"; "sub"; "old"] = None.
Proof.
  split; [reflexivity|]. split; [reflexivity|]. split; [reflexivity|].
  destruct (C4_strictly_older_files_are_deleted 3 context.Background
              s_boundary
              (plain_dir
                 [("sub", plain_dir
                            [("edge", plain_file (10 * time.Hour));
                             ("old", plain_file (10 * time.Hour - 1))])])
              "sub" ["old"] (mkAttr (10 * time.Hour - 1) 420 None))
    as [s' [Hrun [_ [_ [_ Hold]]]]].
  - reflexivity.
  - reflexivity.
  - reflexivity.
  - cbn. lia.
  - reflexivity.
  - reflexivity.
  - exists s'. split; [exact Hrun|]. apply Hold; reflexivity.
Defined.

(** ** The first run *)

Lemma lookup_alter_entry_None x ents :
  NoDup (map fst ents) ->
  lookup x (alter_entry (fun _ => None) x ents) = None.
Proof.
  induction ents as [|[y m] es IH]; cbn [map fst]; intros Hnd; [reflexivity|].
  inversion Hnd as [|? ? Hy Hes]; subst. cbn [alter_entry].
  destruct (String.eqb_spec x y) as [->|Hne].
  - apply lookup_notin. exact Hy.
  - cbn [lookup]. destruct (String.eqb_spec x y); [contradiction|].
    apply IH. exact Hes.
Qed.




(** ** A second sweep *)








Lemma C6_witness :
  find (roots (s_empty true)) [tempDir_of (s_empty true)] = None /\
  exists s',
    Run 0 context.Background (s_empty true) = Done (Some ErrNotExist) s' /\
    roots s' = roots (s_empty true) /\
    this s' = this (s_empty true).
Proof.
  split; [reflexivity|].
  destruct (C6_missing_directory 0 context.Background (s_empty true) eq_refl)
    as [s' [Hrun [_ [_ [_ [Hroots [Hthis _]]]]]]].
  exists s'. split; [exact Hrun|]. split; [exact Hroots | exact Hthis].
Defined.


(** * Further properties of [Run] *)

(** ** Invariants of a walk

    A relation between states that holds across the calls a walk makes itself
    and across its function holds across the walk. *)
Section WalkInvariant.

Variable R : state -> state -> Prop.
Variable ok : Path -> Prop.
Variable fn : filepath.WalkFunc.

Hypothesis R_refl : forall s, R s s.
Hypothesis R_trans : forall s1 s2 s3, R s1 s2 -> R s2 s3 -> R s1 s3.
Hypothesis ok_Join : forall p x, ok p -> ok (filepath.Join p x).
Hypothesis R_Lstat :
  forall p s, ok p -> R s (set_trace (trace s ++ [SysLstat p]) s).
Hypothesis R_ReadDir :
  forall p s, ok p -> R s (set_trace (trace s ++ [SysReadDir p]) s).
Hypothesis R_fn :
  forall p i e s r s', ok p -> fn p i e s = Done r s' -> R s s'.

Lemma walk_names_inv rec path names :
  ok path ->
  (forall p i s r s', ok p -> rec p i s = Done r s' -> R s s') ->
  forall s r s',
    filepath.walk_names rec fn path names s = Done r s' -> R s s'.
Proof.
  intros Hok Hrec. induction names as [|name rest IH]; intros s r s'.
  - intros H; inversion H; subst. apply R_refl.
  - cbn [filepath.walk_names]. intros H.
    apply bind_inv in H. destruct H as [[fi err] [s1 [H1 H2]]].
    rewrite Lstat_steps in H1. inversion H1; subst; clear H1.
    assert (S1 : R s (set_trace (trace s ++
               [SysLstat (filepath.Join path name)]) s))
      by (apply R_Lstat, ok_Join, Hok).
    destruct (notnil err).
    + apply bind_inv in H2. destruct H2 as [e [s2 [H2 H3]]].
      apply R_fn in H2; [|apply ok_Join, Hok].
      destruct (notnil e && negb (err_is e SkipDir)).
      * inversion H3; subst. eauto.
      * apply IH in H3. eauto.
    + destruct fi as [fi|]; [|discriminate].
      apply bind_inv in H2. destruct H2 as [e [s2 [H2 H3]]].
      apply Hrec in H2; [|apply ok_Join, Hok].
      destruct (notnil e).
      * destruct (negb (IsDir fi) || negb (err_is e SkipDir)).
        -- inversion H3; subst. eauto.
        -- apply IH in H3. eauto.
      * apply IH in H3. eauto.
Qed.

Lemma walk_inv fuel : forall path info s r s',
  ok path -> filepath.walk fuel path info fn s = Done r s' -> R s s'.
Proof.
  induction fuel as [|fuel IH]; intros path info s r s' Hok.
  - discriminate.
  - cbn [filepath.walk]. destruct (negb (IsDir info)).
    + apply R_fn. exact Hok.
    + intros H. apply bind_inv in H. destruct H as [[names err] [s1 [H1 H2]]].
      rewrite readDirNames_steps in H1. inversion H1; subst; clear H1.
      assert (S1 : R s (set_trace (trace s ++ [SysReadDir path]) s))
        by (apply R_ReadDir, Hok).
      apply bind_inv in H2. destruct H2 as [e1 [s2 [H2 H3]]].
      apply R_fn in H2; [|exact Hok].
      destruct (notnil err || notnil e1).
      * inversion H3; subst. eauto.
      * apply walk_names_inv in H3; [eauto | exact Hok |].
        intros p i s3 r3 s4 Hp. apply IH. exact Hp.
Qed.

Lemma Walk_inv fuel root s r s' :
  ok root -> filepath.Walk fuel root fn s = Done r s' -> R s s'.
Proof.
  intros Hok. unfold filepath.Walk. intros H.
  apply bind_inv in H. destruct H as [[fi err] [s1 [H1 H2]]].
  rewrite Lstat_steps in H1. inversion H1; subst; clear H1.
  assert (S1 : R s (set_trace (trace s ++ [SysLstat root]) s))
    by (apply R_Lstat, Hok).
  apply bind_inv in H2. destruct H2 as [e [s2 [H2 H3]]].
  assert (S2 : R (set_trace (trace s ++ [SysLstat root]) s) s2).
  { destruct (notnil err).
    - eapply R_fn; [exact Hok | exact H2].
    - destruct fi as [fi|]; [|discriminate].
      eapply walk_inv; [exact Hok | exact H2]. }
  destruct (err_is e SkipDir || err_is e SkipAll);
    inversion H3; subst; eauto.
Qed.

End WalkInvariant.

(** ** The roots a call leaves alone *)

Lemma lookup_alter_entry_other f x t ents :
  x <> t -> lookup x (alter_entry f t ents) = lookup x ents.
Proof.
  intros Hne. induction ents as [|[y m] es IH]; cbn; [reflexivity|].
  destruct (String.eqb_spec t y) as [->|Hty].
  - destruct (String.eqb_spec x y); [contradiction|].
    destruct (f m); cbn; [|reflexivity].
    destruct (String.eqb_spec x y); [contradiction | reflexivity].
  - cbn. rewrite IH. reflexivity.
Qed.

Lemma lookup_insert_entry_other n x t ents :
  x <> t -> lookup x (insert_entry t n ents) = lookup x ents.
Proof.
  intros Hne. induction ents as [|[y m] es IH]; cbn.
  - destruct (String.eqb_spec x t); [contradiction | reflexivity].
  - destruct (String.leb t y); cbn.
    + destruct (String.eqb_spec x t); [contradiction | reflexivity].
    + rewrite IH. reflexivity.
Qed.

Lemma lookup_alter_other f x t p ents :
  below t p -> x <> t -> lookup x (alter f p ents) = lookup x ents.
Proof.
  unfold below. destruct p as [|y q]; cbn; [discriminate|].
  intros [= ->] Hne. destruct q; apply lookup_alter_entry_other; exact Hne.
Qed.

Lemma lookup_mkdirs_other a x t ents :
  x <> t -> lookup x (mkdirs a [t] ents) = lookup x ents.
Proof.
  intros Hne. cbn [mkdirs]. destruct (lookup t ents).
  - apply lookup_alter_entry_other. exact Hne.
  - apply lookup_insert_entry_other. exact Hne.
Qed.

(** ** The first-run branch, whatever the system answers *)

Lemma startupRun_shape t s :
  exists r s' final,
    startupRun t s = Done r s' /\
    firstRun (this s') = false /\
    Logger s' = Logger s ++ [final] /\
    tagged final /\
    level final = outcome_level r /\
    In (zap.String "msg" (outcome_msg r)) (fields final) /\
    (trace s' = trace s ++ [SysRemoveAll [t]] \/
     trace s' = trace s ++ [SysRemoveAll [t]; SysMkdirAll [t] dirMode]) /\
    (forall x, x <> t -> lookup x (roots s') = lookup x (roots s)).
Proof.
  unfold startupRun. run_prims.
  cbn [roots trace Logger set_firstRun set_trace].
  assert (T : forall e, tagged (mkEntry ErrorLevel "task log"
            [zap.String "task" Name; zap.String "type" "startupRun";
             zap.String "path" t; zap.String "msg" "failed"; zap.Error e])).
  { intros e. split; [reflexivity | left; reflexivity]. }
  assert (T' : tagged (mkEntry InfoLevel "task log"
            [zap.String "task" Name; zap.String "type" "startupRun";
             zap.String "msg" "success"])).
  { split; [reflexivity | left; reflexivity]. }
  assert (M1 : forall e, In (zap.String "msg" "failed")
            [zap.String "task" Name; zap.String "type" "startupRun";
             zap.String "path" t; zap.String "msg" "failed"; zap.Error e]).
  { intros e. cbn. tauto. }
  assert (M2 : In (zap.String "msg" "success")
            [zap.String "task" Name; zap.String "type" "startupRun";
             zap.String "msg" "success"]).
  { cbn. tauto. }
  destruct (find (roots s) [t]) as [n|] eqn:Efind.
  - destruct (removeAll_node n) as [rest [e|]]; cbv beta iota.
    + do 3 eexists. split; [reflexivity|].
      cbn [this firstRun Logger trace roots set_Logger set_roots set_trace
           set_firstRun].
      repeat split; [apply T | apply M1 | left; reflexivity |].
      intros x Hx. apply (lookup_alter_other _ x t [t]); [reflexivity | exact Hx].
    + cbn [roots trace Logger set_firstRun set_trace set_roots mkdir_err
           clock].
      assert (O : forall x, x <> t ->
                lookup x (alter (fun _ => rest) [t] (roots s)) =
                lookup x (roots s)).
      { intros x Hx.
        apply (lookup_alter_other _ x t [t]); [reflexivity | exact Hx]. }
      destruct (find (alter (fun _ => rest) [t] (roots s)) [t])
        as [[a|a rd ents|e]|]; cbv beta iota.
      * do 3 eexists. split; [reflexivity|].
        cbn [this firstRun Logger trace roots set_Logger set_roots set_trace
             set_firstRun].
        repeat split; [apply T | apply M1 | right; rewrite <- app_assoc;
          reflexivity | exact O].
      * do 3 eexists. split; [reflexivity|].
        cbn [this firstRun Logger trace roots set_Logger set_roots set_trace
             set_firstRun].
        repeat split; [apply T' | apply M2 | right; rewrite <- app_assoc;
          reflexivity | exact O].
      * do 3 eexists. split; [reflexivity|].
        cbn [this firstRun Logger trace roots set_Logger set_roots set_trace
             set_firstRun].
        repeat split; [apply T | apply M1 | right; rewrite <- app_assoc;
          reflexivity | exact O].
      * cbn [mkdir_err set_trace set_roots set_firstRun].
        destruct (mkdir_err s) as [e|]; cbv beta iota.
        -- do 3 eexists. split; [reflexivity|].
           cbn [this firstRun Logger trace roots set_Logger set_roots
                set_trace set_firstRun].
           repeat split; [apply T | apply M1 | right; rewrite <- app_assoc;
             reflexivity | exact O].
        -- do 3 eexists. split; [reflexivity|].
           cbn [this firstRun Logger trace roots set_Logger set_roots
                set_trace set_firstRun].
           repeat split; [apply T' | apply M2 | right; rewrite <- app_assoc;
             reflexivity |].
           intros x Hx. rewrite lookup_mkdirs_other by exact Hx.
           apply O. exact Hx.
  - cbv beta iota.
    cbn [roots trace Logger set_firstRun set_trace set_roots mkdir_err clock].
    rewrite Efind. cbv beta iota.
    cbn [mkdir_err set_trace set_roots set_firstRun].
    destruct (mkdir_err s) as [e|]; cbv beta iota.
    + do 3 eexists. split; [reflexivity|].
      cbn [this firstRun Logger trace roots set_Logger set_roots
           set_trace set_firstRun].
      repeat split; [apply T | apply M1 | right; rewrite <- app_assoc;
        reflexivity].
    + do 3 eexists. split; [reflexivity|].
      cbn [this firstRun Logger trace roots set_Logger set_roots
           set_trace set_firstRun].
      repeat split; [apply T' | apply M2 | right; rewrite <- app_assoc;
        reflexivity |].
      intros x Hx. apply lookup_mkdirs_other. exact Hx.
Qed.

(** ** Confinement to the temporary directory *)

Lemma confined_refl t s : confined t s s.
Proof.
  split; [reflexivity|]. exists []. rewrite app_nil_r. split; constructor.
Qed.

Lemma confined_trans t s1 s2 s3 :
  confined t s1 s2 -> confined t s2 s3 -> confined t s1 s3.
Proof.
  intros [A1 [c1 [T1 F1]]] [A2 [c2 [T2 F2]]]. split.
  - intros x Hx. rewrite A2, A1 by exact Hx. reflexivity.
  - exists (c1 ++ c2). rewrite T2, T1, app_assoc. split; [reflexivity|].
    apply Forall_app. split; assumption.
Qed.

Lemma confined_call t s c :
  below t (call_path c) -> confined t s (set_trace (trace s ++ [c]) s).
Proof.
  intros H. split; [reflexivity|]. exists [c]. split; [reflexivity|].
  constructor; [exact H | constructor].
Qed.

Lemma below_Join t p x : below t p -> below t (filepath.Join p x).
Proof.
  unfold below, filepath.Join. destruct p; [discriminate|]. trivial.
Qed.

Lemma walkFn_confined t th p i e s r s' :
  below t p -> walkFn th p i e s = Done r s' -> confined t s s'.
Proof.
  intros Hp. unfold walkFn. destruct e as [e|].
  - run_prims. intros H; inversion H; subst. split; [reflexivity|].
    exists []. cbn. rewrite app_nil_r. split; constructor.
  - destruct i as [i|]; [|discriminate].
    destruct (IsDir i); [intros H; inversion H; subst; apply confined_refl|].
    destruct (time.Before _ _);
      [|intros H; inversion H; subst; apply confined_refl].
    run_prims. cbn [roots set_trace].
    destruct (unlink_of (find (roots s) p)); intros H; inversion H; subst.
    + split; [reflexivity|]. exists [SysRemove p]. split; [reflexivity|].
      constructor; [exact Hp | constructor].
    + split.
      * intros x Hx. cbn. apply lookup_alter_other with t; assumption.
      * exists [SysRemove p]. split; [reflexivity|].
        constructor; [exact Hp | constructor].
Qed.

Lemma loopRun_confined fuel t s r s' :
  loopRun fuel t s = Done r s' -> confined t s s'.
Proof.
  unfold loopRun, time_.Now, gets, modify. unfold bind at 1 2 3.
  set (s0 := set_errorCount 0 (set_deletedCount 0 s)).
  intros H. apply bind_inv in H. destruct H as [e [s1 [H1 H2]]].
  apply (Walk_inv (confined t) (below t) (walkFn (twoHoursAgo (clock s))))
    in H1.
  - apply confined_trans with s1; [exact H1|].
    destruct e; inversion H2; subst; split; try reflexivity;
      exists []; cbn; rewrite app_nil_r; split; constructor.
  - apply confined_refl.
  - apply confined_trans.
  - apply below_Join.
  - intros p s2 Hp. apply confined_call. exact Hp.
  - intros p s2 Hp. apply confined_call. exact Hp.
  - intros p i e' s2 r2 s3. apply walkFn_confined.
  - reflexivity.
Qed.

(** X1: whatever the state of the task and of the system, an invocation that
    ends has made its calls on the temporary directory and on paths below it
    only, and every other root is as it was. *)
Theorem Run_confined_to_tempDir fuel ctx s r s' :
  Run fuel ctx s = Done r s' ->
  confined (tempDir_of s) s s'.
Proof.
  destruct (os.IsNotExist (stat_err s)) eqn:E.
  - rewrite (Run_missing _ _ _ E). intros H; inversion H; subst.
    split; [reflexivity|]. exists [SysStat [tempDir_of s]].
    split; [reflexivity|]. constructor; [reflexivity | constructor].
  - rewrite (Run_checked _ _ _ E). intros H.
    apply confined_trans with (checked s).
    + apply confined_call. reflexivity.
    + change (tempDir_of s) with (tempDir_of (checked s)) at 1.
      destruct (firstRun (this s)).
      * destruct (startupRun_shape (tempDir_of s) (checked s))
          as [r0 [s0 [f [Hrun [_ [_ [_ [_ [_ [Htr Hroots]]]]]]]]]].
        rewrite Hrun in H. inversion H; subst. split; [exact Hroots|].
        destruct Htr as [-> | ->]; eexists; (split; [reflexivity|]);
          repeat constructor.
      * eapply loopRun_confined. exact H.
Qed.

Lemma Run_confined_witness :
  exists s',
    Run 2 context.Background s_shared = Done None s' /\
    lookup "data" (roots s') = lookup "data" (roots s_shared).
Proof.
  eexists. split; [vm_compute; reflexivity|].
  apply (Run_confined_to_tempDir 2 context.Background s_shared None).
  - vm_compute. reflexivity.
  - discriminate.
Defined.

(** ** The records of an invocation *)

Lemma warned_refl s : warned s s.
Proof. exists []. rewrite app_nil_r. split; constructor. Qed.

Lemma warned_trans s1 s2 s3 : warned s1 s2 -> warned s2 s3 -> warned s1 s3.
Proof.
  intros [l1 [L1 F1]] [l2 [L2 F2]]. exists (l1 ++ l2).
  rewrite L2, L1, app_assoc. split; [reflexivity|].
  apply Forall_app. split; assumption.
Qed.

Lemma walkFn_warned th p i e s r s' :
  walkFn th p i e s = Done r s' -> warned s s'.
Proof.
  unfold walkFn. destruct e as [e|].
  - run_prims. intros H; inversion H; subst. eexists. split; [reflexivity|].
    repeat constructor.
  - destruct i as [i|]; [|discriminate].
    destruct (IsDir i); [intros H; inversion H; subst; apply warned_refl|].
    destruct (time.Before _ _);
      [|intros H; inversion H; subst; apply warned_refl].
    run_prims. cbn [roots set_trace].
    destruct (unlink_of (find (roots s) p)); intros H; inversion H; subst.
    + eexists. split; [reflexivity|]. repeat constructor.
    + exists []. cbn. rewrite app_nil_r. split; constructor.
Qed.

Lemma warned_call s c : warned s (set_trace (trace s ++ [c]) s).
Proof. exists []. cbn. rewrite app_nil_r. split; constructor. Qed.

Lemma Walk_warned fuel th root s r s' :
  filepath.Walk fuel root (walkFn th) s = Done r s' -> warned s s'.
Proof.
  intros H.
  apply (Walk_inv warned (fun _ => True) (walkFn th)) in H.
  - exact H.
  - apply warned_refl.
  - apply warned_trans.
  - trivial.
  - intros p s2 _. apply warned_call.
  - intros p s2 _. apply warned_call.
  - intros p i e s2 r2 s3 _. apply walkFn_warned.
  - exact I.
Qed.

(** X2: an invocation that ends has added to the log some warnings and then
    exactly one last record, of level Info and outcome "success" when it
    returns nil, of level Error and outcome "failed" when it returns an
    error; every record added has the message "task log" and carries the
    name of the task. *)
Theorem Run_logs_one_outcome fuel ctx s r s' :
  Run fuel ctx s = Done r s' ->
  exists warnings final,
    Logger s' = Logger s ++ warnings ++ [final] /\
    Forall (fun e => level e = WarnLevel /\ tagged e) warnings /\
    tagged final /\
    level final = outcome_level r /\
    In (zap.String "msg" (outcome_msg r)) (fields final).
Proof.
  destruct (os.IsNotExist (stat_err s)) eqn:E.
  - rewrite (Run_missing _ _ _ E). intros H; inversion H; subst.
    exists [], (missing_entry (tempDir_of s)). split; [reflexivity|].
    split; [constructor|]. split; [split; [reflexivity | left; reflexivity]|].
    destruct (stat_err s); [|discriminate].
    split; [reflexivity | cbn; tauto].
  - rewrite (Run_checked _ _ _ E). destruct (firstRun (this s)).
    + destruct (startupRun_shape (tempDir_of s) (checked s))
        as [r0 [s0 [f [Hrun [_ [Hlog [Htag [Hlev [Hmsg _]]]]]]]]].
      rewrite Hrun. intros H; inversion H; subst.
      exists [], f. split; [exact Hlog|]. split; [constructor|].
      split; [exact Htag|]. split; assumption.
    + unfold loopRun, time_.Now, gets, modify. unfold bind at 1 2 3.
      set (s0 := set_errorCount 0 (set_deletedCount 0 (checked s))).
      intros H. apply bind_inv in H. destruct H as [e [s1 [H1 H2]]].
      apply Walk_warned in H1.
      destruct H1 as [l [Hl Fl]]. change (Logger s0) with (Logger s) in Hl.
      destruct e as [e|]; inversion H2; subst; clear H2;
        cbn [Logger set_Logger]; rewrite Hl, <- app_assoc;
        eexists l, _; (split; [reflexivity|]); (split; [exact Fl|]);
        (split; [split; [reflexivity | left; reflexivity]|]);
        (split; [reflexivity | cbn; tauto]).
Qed.

Lemma Run_logs_one_outcome_witness :
  exists s' warnings final,
    Run 2 context.Background s_ten = Done None s' /\
    Logger s' = Logger s_ten ++ warnings ++ [final] /\
    level final = InfoLevel.
Proof.
  assert (exists s', Run 2 context.Background s_ten = Done None s')
    as [s' Hs'] by (vm_compute; eexists; reflexivity).
  destruct (Run_logs_one_outcome _ _ _ _ _ Hs')
    as [w [f [Hlog [_ [_ [Hlev _]]]]]].
  exists s', w, f. split; [exact Hs'|]. split; [exact Hlog | exact Hlev].
Defined.

(** ** Removals and counters *)

Lemma accounted_refl s : accounted s s.
Proof.
  exists 0%nat, 0%nat, []. rewrite app_nil_r. repeat split.
Qed.

Lemma accounted_trans s1 s2 s3 :
  accounted s1 s2 -> accounted s2 s3 -> accounted s1 s3.
Proof.
  intros [a1 [b1 [c1 [T1 [N1 [D1 E1]]]]]] [a2 [b2 [c2 [T2 [N2 [D2 E2]]]]]].
  exists (a1 + a2)%nat, (b1 + b2)%nat, (c1 ++ c2).
  rewrite T2, T1, app_assoc, filter_app, length_app, N1, N2.
  rewrite D2, D1, E2, E1, !count_up_add.
  repeat split. lia.
Qed.

Lemma accounted_call s c :
  is_remove c = false -> accounted s (set_trace (trace s ++ [c]) s).
Proof.
  intros H. exists 0%nat, 0%nat, [c]. cbn. rewrite H. repeat split.
Qed.

Lemma walkFn_accounted th p i e s r s' :
  walkFn th p i e s = Done r s' -> accounted s s'.
Proof.
  unfold walkFn. destruct e as [e|].
  - run_prims. intros H; inversion H; subst.
    exists 0%nat, 0%nat, []. cbn. rewrite app_nil_r. repeat split.
  - destruct i as [i|]; [|discriminate].
    destruct (IsDir i); [intros H; inversion H; subst; apply accounted_refl|].
    destruct (time.Before _ _);
      [|intros H; inversion H; subst; apply accounted_refl].
    run_prims. cbn [roots set_trace].
    destruct (unlink_of (find (roots s) p)); intros H; inversion H; subst.
    + exists 0%nat, 1%nat, [SysRemove p]. repeat split.
    + exists 1%nat, 0%nat, [SysRemove p]. repeat split.
Qed.

Lemma Walk_accounted fuel th root s r s' :
  filepath.Walk fuel root (walkFn th) s = Done r s' -> accounted s s'.
Proof.
  intros H.
  apply (Walk_inv accounted (fun _ => True) (walkFn th)) in H.
  - exact H.
  - apply accounted_refl.
  - apply accounted_trans.
  - trivial.
  - intros p s2 _. apply accounted_call. reflexivity.
  - intros p s2 _. apply accounted_call. reflexivity.
  - intros p i e s2 r2 s3 _. apply walkFn_accounted.
  - exact I.
Qed.

(** X3: in SteadyState, past the existence check, whatever the tree: the
    calls of an invocation that ends are the [Stat] of the check followed by
    those of the walk, and the two counts of its record add up to the number
    of [os.Remove] calls made; every removal attempted is counted once, as a
    deletion or as an error, and nothing else is counted. *)
Theorem Run_counts_every_removal fuel ctx s r s' :
  firstRun (this s) = false ->
  os.IsNotExist (stat_err s) = false ->
  Run fuel ctx s = Done r s' ->
  exists (a b : nat) calls warnings,
    r = None /\
    trace s' = trace s ++ SysStat [tempDir_of s] :: calls /\
    List.length (filter is_remove calls) = (a + b)%nat /\
    Logger s' =
      Logger s ++ warnings ++
      [sweep_entry (int.wrap (Z.of_nat a)) (int.wrap (Z.of_nat b))].
Proof.
  intros Hfr E. rewrite (Run_checked _ _ _ E), Hfr.
  unfold loopRun, time_.Now, gets, modify. unfold bind at 1 2 3.
  set (s0 := set_errorCount 0 (set_deletedCount 0 (checked s))).
  intros H. apply bind_inv in H. destruct H as [e [s1 [H1 H2]]].
  pose proof (Walk_quiet _ (walkFn_quiet _) _ _ _ _ _ H1) as [-> _].
  pose proof (Walk_warned _ _ _ _ _ _ H1) as [l [Hl _]].
  apply Walk_accounted in H1.
  destruct H1 as [a [b [calls [T [N [D Er]]]]]].
  change (deletedCount s0) with 0 in D. change (errorCount s0) with 0 in Er.
  change (Logger s0) with (Logger s) in Hl.
  change (trace s0) with (trace s ++ [SysStat [tempDir_of s]]) in T.
  rewrite count_up_wrap in D, Er.
  inversion H2; subst; clear H2.
  exists a, b, calls, l. split; [reflexivity|].
  cbn [trace Logger set_Logger].
  rewrite T, Hl, D, Er, <- !app_assoc. repeat split. exact N.
Qed.

Lemma Run_counts_every_removal_witness :
  firstRun (this s_ten) = false /\
  os.IsNotExist (stat_err s_ten) = false /\
  exists s' (a b : nat) calls warnings,
    Run 2 context.Background s_ten = Done None s' /\
    trace s' = trace s_ten ++ SysStat [tempDir_of s_ten] :: calls /\
    List.length (filter is_remove calls) = (a + b)%nat /\
    Logger s' =
      Logger s_ten ++ warnings ++
      [sweep_entry (int.wrap (Z.of_nat a)) (int.wrap (Z.of_nat b))].
Proof.
  split; [reflexivity|]. split; [reflexivity|].
  assert (exists s', Run 2 context.Background s_ten = Done None s')
    as [s' Hs'] by (vm_compute; eexists; reflexivity).
  destruct (Run_counts_every_removal 2 context.Background s_ten None s'
              eq_refl eq_refl Hs')
    as [a [b [calls [w [_ [T [N L]]]]]]].
  exists s', a, b, calls, w. split; [exact Hs'|]. split; [exact T|].
  split; [exact N | exact L].
Defined.

(** ** No nil dereference *)

Lemma bind_Panic {A B} (m : M A) (k : A -> M B) s :
  bind m k s = Panic ->
  m s = Panic \/ exists a s1, m s = Done a s1 /\ k a s1 = Panic.
Proof.
  unfold bind. destruct (m s) as [a s1| |]; intros H.
  - right. exists a, s1. split; [reflexivity | exact H].
  - discriminate.
  - left. reflexivity.
Qed.

Lemma stat_of_info o fi : stat_of o = (fi, None) -> fi <> None.
Proof.
  destruct o as [[a|a rd ents|e]|]; cbn; intros H; inversion H; discriminate.
Qed.

Lemma walkFn_safe th p i e s :
  i <> None \/ e <> None -> walkFn th p i e s <> Panic.
Proof.
  intros H. unfold walkFn. destruct e as [e|]; [discriminate|].
  destruct i as [i|]; [|destruct H; contradiction].
  destruct (IsDir i); [discriminate|].
  destruct (time.Before _ _); [|discriminate].
  run_prims. cbn [roots set_trace].
  destruct (unlink_of (find (roots s) p)); discriminate.
Qed.

Section WalkSafe.

Variable fn : filepath.WalkFunc.
Hypothesis fn_safe :
  forall p i e s, i <> None \/ e <> None -> fn p i e s <> Panic.

Lemma walk_names_safe rec path names :
  (forall p i s, rec p i s <> Panic) ->
  forall s, filepath.walk_names rec fn path names s <> Panic.
Proof.
  intros Hrec. induction names as [|name rest IH]; intros s; [discriminate|].
  cbn [filepath.walk_names]. intros H.
  apply bind_Panic in H. destruct H as [H | [[fi err] [s1 [H1 H2]]]];
    [discriminate|].
  rewrite Lstat_steps in H1. inversion H1 as [[Hst Hs1]]; clear H1.
  destruct err as [e|]; cbn [notnil] in H2.
  - apply bind_Panic in H2. destruct H2 as [H2 | [e1 [s2 [_ H3]]]].
    + revert H2. apply fn_safe. right. discriminate.
    + destruct (notnil e1 && negb (err_is e1 SkipDir));
        [discriminate | exact (IH _ H3)].
  - apply stat_of_info in Hst. destruct fi as [fi|]; [|contradiction].
    apply bind_Panic in H2. destruct H2 as [H2 | [e1 [s2 [_ H3]]]].
    + exact (Hrec _ _ _ H2).
    + destruct (notnil e1);
        [destruct (negb (IsDir fi) || negb (err_is e1 SkipDir));
           [discriminate | exact (IH _ H3)]
        | exact (IH _ H3)].
Qed.

Lemma walk_safe fuel : forall path info s,
  filepath.walk fuel path (info : FileInfo) fn s <> Panic.
Proof.
  induction fuel as [|fuel IH]; intros path info s; [discriminate|].
  cbn [filepath.walk]. destruct (negb (IsDir info)).
  - apply fn_safe. left. discriminate.
  - intros H. apply bind_Panic in H.
    destruct H as [H | [[names err] [s1 [_ H2]]]]; [discriminate|].
    apply bind_Panic in H2. destruct H2 as [H2 | [e1 [s2 [_ H3]]]].
    + revert H2. apply fn_safe. left. discriminate.
    + destruct (notnil err || notnil e1); [discriminate|].
      revert H3. apply walk_names_safe. intros p i s3. apply IH.
Qed.

Lemma Walk_safe fuel root s : filepath.Walk fuel root fn s <> Panic.
Proof.
  unfold filepath.Walk. intros H. apply bind_Panic in H.
  destruct H as [H | [[fi err] [s1 [H1 H2]]]]; [discriminate|].
  rewrite Lstat_steps in H1. inversion H1 as [[Hst Hs1]]; clear H1.
  apply bind_Panic in H2. destruct H2 as [H2 | [e1 [s2 [_ H3]]]].
  - destruct err as [e|]; cbn [notnil] in H2.
    + revert H2. apply fn_safe. right. discriminate.
    + apply stat_of_info in Hst. destruct fi as [fi|]; [|contradiction].
      revert H2. apply walk_safe.
  - destruct (err_is e1 SkipDir || err_is e1 SkipAll); discriminate.
Qed.

End WalkSafe.

(** X4: [Run] never dereferences a nil [FileInfo]: whatever the state of the
    task and of the system and whatever the fuel, an invocation does not
    panic.  The walk hands its function a nil info only together with an
    error, and the function reads the info only when the error is nil. *)
Theorem Run_never_panics fuel ctx s : Run fuel ctx s <> Panic.
Proof.
  destruct (os.IsNotExist (stat_err s)) eqn:E.
  - rewrite (Run_missing _ _ _ E). discriminate.
  - rewrite (Run_checked _ _ _ E). destruct (firstRun (this s)).
    + destruct (startupRun_shape (tempDir_of s) (checked s))
        as [r0 [s0 [f [Hrun _]]]].
      rewrite Hrun. discriminate.
    + unfold loopRun, time_.Now, gets, modify. unfold bind at 1 2 3.
      intros H. apply bind_Panic in H.
      destruct H as [H | [e [s1 [_ H2]]]].
      * revert H. apply Walk_safe. apply walkFn_safe.
      * destruct e; discriminate.
Qed.

(** ** One wipe in a lifetime *)

Lemma Run_first fuel ctx s r s' :
  firstRun (this s) = true ->
  Run fuel ctx s = Done r s' ->
  (firstRun (this s') = true /\
   filter is_wipe (trace s') = filter is_wipe (trace s)) \/
  (firstRun (this s') = false /\
   exists t,
     filter is_wipe (trace s') =
       filter is_wipe (trace s) ++ [SysRemoveAll [t]] \/
     filter is_wipe (trace s') =
       filter is_wipe (trace s) ++
       [SysRemoveAll [t]; SysMkdirAll [t] dirMode]).
Proof.
  intros Hfr. destruct (os.IsNotExist (stat_err s)) eqn:E.
  - rewrite (Run_missing _ _ _ E). intros H; inversion H; subst. left.
    split; [exact Hfr|]. cbn. rewrite filter_app. cbn. apply app_nil_r.
  - rewrite (Run_checked _ _ _ E), Hfr.
    destruct (startupRun_shape (tempDir_of s) (checked s))
      as [r0 [s0 [f [Hrun [Hflag [_ [_ [_ [_ [Htr _]]]]]]]]]].
    rewrite Hrun. intros H; inversion H; subst. right.
    split; [exact Hflag|]. exists (tempDir_of s).
    destruct Htr as [-> | ->]; [left | right];
      cbn [checked trace set_trace]; rewrite !filter_app; cbn;
      rewrite app_nil_r; reflexivity.
Qed.

(** X5: a task built by its constructor starts in FirstRun with no error,
    and over its whole lifetime, whatever the invocations return and
    whatever the environment does in between, it makes at most one recursive
    delete and at most one directory creation, the creation right after the
    delete; the flag is set exactly as long as no wipe was attempted. *)
Theorem wipe_at_most_once s s' :
  born s ->
  later s s' ->
  snd NewFileSessionTempCleanTask = None /\
  ((firstRun (this s') = true /\ filter is_wipe (trace s') = []) \/
   (firstRun (this s') = false /\
    exists t,
      filter is_wipe (trace s') = [SysRemoveAll [t]] \/
      filter is_wipe (trace s') =
        [SysRemoveAll [t]; SysMkdirAll [t] dirMode])).
Proof.
  intros [Hthis Htrace] Hl. split; [reflexivity|].
  induction Hl as [|s1 s2 Hl IH Ht Htr|s1 s2 fuel ctx r Hl IH Hrun].
  - left. rewrite Hthis, Htrace. split; reflexivity.
  - rewrite Ht, Htr. exact IH.
  - destruct IH as [[Hfr Hw] | [Hfr Hw]].
    + destruct (Run_first _ _ _ _ _ Hfr Hrun) as [[F W] | [F [t W]]].
      * left. rewrite W, Hw. split; [exact F | reflexivity].
      * right. split; [exact F|]. exists t. rewrite Hw in W. exact W.
    + apply Run_steady in Hrun; [|exact Hfr]. destruct Hrun as [Hsteps _].
      right. rewrite (st_this _ _ Hsteps), (steps_wipes _ _ Hsteps).
      split; [exact Hfr | exact Hw].
Qed.

Lemma wipe_at_most_once_witness :
  born s_fresh /\
  exists s2,
    later s_fresh s2 /\
    ((firstRun (this s2) = true /\ filter is_wipe (trace s2) = []) \/
     (firstRun (this s2) = false /\
      exists t,
        filter is_wipe (trace s2) = [SysRemoveAll [t]] \/
        filter is_wipe (trace s2) =
          [SysRemoveAll [t]; SysMkdirAll [t] dirMode])).
Proof.
  assert (B : born s_fresh) by (split; reflexivity).
  split; [exact B|].
  assert (exists s1, Run 0 context.Background s_fresh = Done None s1)
    as [s1 H1] by (vm_compute; eexists; reflexivity).
  destruct (Run 1 context.Background s1) as [r2 s2| |] eqn:H2.
  - assert (L : later s_fresh s2).
    { eapply later_Run; [|exact H2]. eapply later_Run; [|exact H1].
      apply later_now. }
    exists s2. split; [exact L|].
    exact (proj2 (wipe_at_most_once s_fresh s2 B L)).
  - exists s1.
    assert (L : later s_fresh s1)
      by (eapply later_Run; [apply later_now | exact H1]).
    split; [exact L | exact (proj2 (wipe_at_most_once s_fresh s1 B L))].
  - exists s1.
    assert (L : later s_fresh s1)
      by (eapply later_Run; [apply later_now | exact H1]).
    split; [exact L | exact (proj2 (wipe_at_most_once s_fresh s1 B L))].
Defined.

(** ** What a sweep leaves in place *)

Lemma sweep_node_File th m a : sweep_node th m = Some (File a) -> m = File a.
Proof.
  destruct m as [b|b rd ents|e]; cbn [sweep_node].
  - destruct (stale th b); [destruct (unlink_err b)|]; intros H;
      inversion H; reflexivity.
  - destruct rd; discriminate.
  - discriminate.
Qed.

Lemma sweep_node_Dir th m b rd sub' :
  sweep_node th m = Some (Dir b rd sub') ->
  exists sub,
    m = Dir b rd sub /\
    (rd = None /\ sub' = sweep_ents th sub \/ rd <> None /\ sub' = sub).
Proof.
  destruct m as [c|c rd0 ents|e]; cbn [sweep_node].
  - destruct (stale th c); [destruct (unlink_err c)|]; discriminate.
  - destruct rd0 as [e|]; intros H; inversion H; subst; eexists.
    + split; [reflexivity|]. right. split; [discriminate | reflexivity].
    + split; [reflexivity|]. left. split; reflexivity.
  - discriminate.
Qed.

Lemma wf_sub x ents b rd sub :
  forallb (fun e => wf_node (snd e)) ents = true ->
  lookup x ents = Some (Dir b rd sub) ->
  NoDup (map fst sub) /\ forallb (fun e => wf_node (snd e)) sub = true.
Proof.
  intros Hwf E. apply lookup_In in E.
  rewrite forallb_forall in Hwf. specialize (Hwf _ E).
  cbn [snd wf_node] in Hwf. apply andb_true_iff in Hwf.
  destruct Hwf as [Hd Hw]. apply distinct_NoDup in Hd. split; assumption.
Qed.


Lemma find_sweep_ents_File th q : forall ents a,
  NoDup (map fst ents) ->
  forallb (fun e => wf_node (snd e)) ents = true ->
  find (sweep_ents th ents) q = Some (File a) ->
  find ents q = Some (File a).
Proof.
  induction q as [|x q IH]; intros ents a Hnd Hwf Hfind; [discriminate|].
  destruct q as [|z q].
  - cbn [find] in *. rewrite lookup_sweep_ents in Hfind by exact Hnd.
    destruct (lookup x ents) as [m|]; [|discriminate].
    apply sweep_node_File in Hfind. subst. reflexivity.
  - change (find (sweep_ents th ents) (x :: z :: q))
      with (match lookup x (sweep_ents th ents) with
            | Some (Dir _ _ s0) => find s0 (z :: q)
            | _ => None
            end) in Hfind.
    change (find ents (x :: z :: q))
      with (match lookup x ents with
            | Some (Dir _ _ s0) => find s0 (z :: q)
            | _ => None
            end).
    rewrite lookup_sweep_ents in Hfind by exact Hnd.
    destruct (lookup x ents) as [m|] eqn:E; [|discriminate].
    destruct (sweep_node th m) as [[b|b rd1 sub'|e]|] eqn:Es;
      try discriminate.
    apply sweep_node_Dir in Es.
    destruct Es as [sub1 [-> [[-> ->] | [_ ->]]]].
    + destruct (wf_sub _ _ _ _ _ Hwf E) as [Hnd1 Hwf1].
      eapply IH; eassumption.
    + exact Hfind.
Qed.



(** X7: in SteadyState, on a well-formed target directory and with fuel for
    its height, a sweep creates no file and alters none: a file found below
    the temporary directory afterwards was there before, with the same
    attributes. *)
Theorem sweep_alters_no_file fuel ctx s b rd sub :
  firstRun (this s) = false ->
  find (roots s) [tempDir_of s] = Some (Dir b rd sub) ->
  wf_node (Dir b rd sub) = true ->
  (height (Dir b rd sub) <= fuel)%nat ->
  exists s',
    Run fuel ctx s = Done None s' /\
    forall q a,
      find (roots s') (tempDir_of s :: q) = Some (File a) ->
      find (roots s) (tempDir_of s :: q) = Some (File a).
Proof.
  intros Hfr Hroot Hwf Hh.
  destruct (Run_sweep fuel ctx s _ Hfr Hroot) as
      [s' [l [Hrun [Hroots _]]]]; [discriminate | exact Hwf | exact Hh |].
  exists s'. split; [exact Hrun|]. intros q a Hfile.
  cbn [wf_node] in Hwf. apply andb_true_iff in Hwf.
  destruct Hwf as [Hd Hw]. apply distinct_NoDup in Hd.
  assert (Hnew : lookup (tempDir_of s) (roots s') =
                 sweep_node (twoHoursAgo (clock s)) (Dir b rd sub)).
  { rewrite Hroots. cbn [alter]. cbn [find] in Hroot.
    destruct rd; (erewrite lookup_alter_entry; [|exact Hroot|reflexivity]);
      reflexivity. }
  destruct q as [|z q].
  - cbn [find] in Hfile. rewrite Hnew in Hfile. destruct rd; discriminate.
  - change (find (roots s') (tempDir_of s :: z :: q))
      with (match lookup (tempDir_of s) (roots s') with
            | Some (Dir _ _ s0) => find s0 (z :: q)
            | _ => None
            end) in Hfile.
    change (find (roots s) (tempDir_of s :: z :: q))
      with (match lookup (tempDir_of s) (roots s) with
            | Some (Dir _ _ s0) => find s0 (z :: q)
            | _ => None
            end).
    cbn [find] in Hroot. rewrite Hroot. rewrite Hnew in Hfile.
    destruct rd as [e|].
    + exact Hfile.
    + change (find (sweep_ents (twoHoursAgo (clock s)) sub) (z :: q) =
              Some (File a)) in Hfile.
      eapply find_sweep_ents_File; eassumption.
Qed.

Lemma sweep_alters_no_file_witness :
  firstRun (this s_shared) = false /\
  exists s',
    Run 2 context.Background s_shared = Done None s' /\
    forall q a,
      find (roots s') ("storage/temp" :: q) = Some (File a) ->
      find (roots s_shared) ("storage/temp" :: q) = Some (File a).
Proof.
  split; [reflexivity|].
  apply (sweep_alters_no_file 2 context.Background s_shared
           (mkAttr 0 493 None) None
           [("sub", Dir (mkAttr 0 493 None) None []);
            ("old", plain_file (9 * time.Hour));
            ("new", plain_file (11 * time.Hour))]).
  - reflexivity.
  - reflexivity.
  - reflexivity.
  - cbn. lia.
Defined.

(** ** A directory that is missing stays missing *)

(** X8: when the temporary directory does not exist, [Run] does not create
    it: any number of invocations in a row all return the not-exist error,
    and the trees, the task instance and the configuration are as they were;
    no call that changes the file system is made. *)
Theorem missing_directory_is_never_created k fuel ctx : forall s,
  find (roots s) [tempDir_of s] = None ->
  exists s',
    invocations k fuel ctx s = Done (repeat (Some ErrNotExist) k) s' /\
    roots s' = roots s /\
    this s' = this s /\
    TempPath s' = TempPath s /\
    filter mutates (trace s') = filter mutates (trace s).
Proof.
  induction k as [|k IH]; intros s Hfind.
  - exists s. repeat split.
  - assert (E : stat_err s = Some ErrNotExist)
      by (unfold stat_err; rewrite Hfind; reflexivity).
    assert (Hrun : Run fuel ctx s =
              Done (Some ErrNotExist)
                   (set_Logger (Logger s ++ [missing_entry (tempDir_of s)])
                               (checked s)))
      by (rewrite Run_missing; rewrite E; reflexivity).
    destruct (IH (set_Logger (Logger s ++ [missing_entry (tempDir_of s)])
                             (checked s)) Hfind)
      as [s' [Hinv [Hroots [Hthis [Htemp Htrace]]]]].
    exists s'. split.
    + cbn [invocations]. erewrite bind_Done; [|exact Hrun].
      erewrite bind_Done; [|exact Hinv]. reflexivity.
    + rewrite Hroots, Hthis, Htemp, Htrace. repeat split.
      cbn [trace set_Logger checked set_trace]. rewrite filter_app. cbn.
      apply app_nil_r.
Qed.

Lemma missing_directory_is_never_created_witness :
  find (roots (s_empty true)) [tempDir_of (s_empty true)] = None /\
  exists s',
    invocations 3 0 context.Background (s_empty true) =
      Done [Some ErrNotExist; Some ErrNotExist; Some ErrNotExist] s' /\
    roots s' = roots (s_empty true) /\
    this s' = this (s_empty true).
Proof.
  split; [reflexivity|].
  destruct (missing_directory_is_never_created 3 0 context.Background
              (s_empty true) eq_refl)
    as [s' [Hinv [Hroots [Hthis _]]]].
  exists s'. split; [exact Hinv|]. split; [exact Hroots | exact Hthis].
Defined.

(** ** A temporary path that is a file *)

(** X9: in SteadyState, when the temporary path leads to a file and not to a
    directory, the walk treats the path itself as a file: if it is older
    than the threshold and its removal is accepted, [Run] removes it,
    records one deletion and returns nil, and the next invocation returns
    the not-exist error. *)
Theorem sweep_removes_a_file_root fuel ctx s a :
  firstRun (this s) = false ->
  distinct (map fst (roots s)) = true ->
  find (roots s) [tempDir_of s] = Some (File a) ->
  mtime a < twoHoursAgo (clock s) ->
  unlink_err a = None ->
  (1 <= fuel)%nat ->
  exists s1 s2 warnings,
    Run fuel ctx s = Done None s1 /\
    Logger s1 = Logger s ++ warnings ++ [sweep_entry 1 0] /\
    find (roots s1) [tempDir_of s] = None /\
    Run fuel ctx s1 = Done (Some ErrNotExist) s2.
Proof.
  intros Hfr Hnd Hroot Hold Hrm Hfuel. apply distinct_NoDup in Hnd.
  destruct (Run_sweep fuel ctx s (File a) Hfr Hroot) as
      [s1 [l [Hrun [Hroots [Hlog Hsteps]]]]];
    [discriminate | reflexivity | exact Hfuel |].
  assert (Hst : stale (twoHoursAgo (clock s)) a = true)
    by (unfold stale, time.Before; apply Z.ltb_lt; exact Hold).
  cbn [sweep_node deleted_in failed_in] in Hroots, Hlog.
  rewrite Hst, Hrm in Hroots, Hlog.
  assert (Hgone : find (roots s1) [tempDir_of s] = None).
  { rewrite Hroots. apply lookup_alter_entry_None. exact Hnd. }
  assert (Htemp : tempDir_of s1 = tempDir_of s)
    by (unfold tempDir_of; rewrite (st_TempPath _ _ Hsteps); reflexivity).
  assert (E : stat_err s1 = Some ErrNotExist)
    by (unfold stat_err; rewrite Htemp, Hgone; reflexivity).
  eexists s1, _, l. split; [exact Hrun|]. split; [exact Hlog|].
  split; [exact Hgone|].
  rewrite Run_missing; rewrite E; reflexivity.
Qed.

Lemma sweep_removes_a_file_root_witness :
  firstRun (this s_file) = false /\
  find (roots s_file) [tempDir_of s_file] = Some (plain_file 0) /\
  exists s1 s2 warnings,
    Run 1 context.Background s_file = Done None s1 /\
    Logger s1 = Logger s_file ++ warnings ++ [sweep_entry 1 0] /\
    find (roots s1) [tempDir_of s_file] = None /\
    Run 1 context.Background s1 = Done (Some ErrNotExist) s2.
Proof.
  split; [reflexivity|]. split; [reflexivity|].
  apply (sweep_removes_a_file_root 1 context.Background s_file
           (mkAttr 0 420 None)).
  - reflexivity.
  - reflexivity.
  - reflexivity.
  - reflexivity.
  - reflexivity.
  - apply le_n.
Defined.
